(** * shiny/_autoreload.py: the autoreload bridge

    A shallow embedding of [shiny/_autoreload.py]: the response rewriter
    [ResponseMangler] with [_add_to_content_length], the middleware
    [InjectAutoreloadMiddleware], and the parent-process reload server
    ([nudge], [reload_server], [process_request]).

    Python [bytes] are lists of [Byte.byte]; Python [str] are lists of code
    points.  The [ResponseMangler] object and the downstream [send] callable
    are a record threaded through a small state-and-exception monad; the
    connection handler of the reload server is an interaction tree. *)

From Stdlib Require Import Strings.Byte Strings.Ascii Strings.String.
From Stdlib Require Import List ZArith NArith Bool Lia Arith.
From ITree Require Import ITree.
Import ListNotations.

Set Implicit Arguments.

(* ===================================================================== *)
(** ** Python values and the builtins the module calls *)
(* ===================================================================== *)

Module Py.

(** [bytes]: a sequence of integers in [0, 256). *)
Definition bytes := list byte.

(** [str]: a sequence of Unicode code points. *)
Definition str := list N.

(** A [bytes] literal and a [str] literal, from the characters of a Rocq
    string (every character of the literals used below is ASCII). *)
Definition b (s : String.string) : bytes := String.list_byte_of_string s.

Definition u (s : String.string) : str :=
  map N_of_ascii (String.list_ascii_of_string s).

Arguments b s%_string.
Arguments u s%_string.

(** The exceptions that the modelled code can raise. *)
Inductive exn : Type :=
| AssertionError
| TypeError
| ValueError
| UnicodeDecodeError
| UnicodeEncodeError
| RuntimeError
| MultipleValuesError.

(** The result of a call: a value, or a raised exception. *)
Inductive result (A : Type) : Type :=
| Ok (a : A)
| Raise (e : exn).

Arguments Ok {A} a.
Arguments Raise {A} e.

Fixpoint str_eqb (s t : str) : bool :=
  match s, t with
  | [], [] => true
  | x :: s', y :: t' => N.eqb x y && str_eqb s' t'
  | _, _ => false
  end.

(** [sub.startswith-at-0]: [old] is a prefix of [s]. *)
Fixpoint prefixb (old s : bytes) : bool :=
  match old, s with
  | [], _ => true
  | _ :: _, [] => false
  | x :: old', y :: s' => Byte.eqb x y && prefixb old' s'
  end.

(** [sub in s] for [bytes]: [sub] occurs in [s] as a contiguous slice. *)
Fixpoint contains (sub s : bytes) : bool :=
  if prefixb sub s then true
  else match s with
       | [] => false
       | _ :: s' => contains sub s'
       end.

(** [s.replace(old, new, 1)]: the leftmost occurrence of [old] is replaced by
    [new]; [s] is returned unchanged when there is none. *)
Fixpoint replace_first (old new s : bytes) : bytes :=
  if prefixb old s then new ++ skipn (length old) s
  else match s with
       | [] => []
       | c :: s' => c :: replace_first old new s'
       end.

(** [len(s)] as a Python integer. *)
Definition len {A : Type} (s : list A) : Z := Z.of_nat (length s).

(** *** [int(value)] on [bytes] *)

(** ASCII whitespace as [int] strips it: tab, LF, VT, FF, CR and space. *)
Definition is_space (c : byte) : bool :=
  let n := Byte.to_N c in
  ((9 <=? n) && (n <=? 13) || (n =? 32))%N.

Definition digit_of (c : byte) : option Z :=
  let n := Z.of_N (Byte.to_N c) in
  if ((48 <=? n) && (n <=? 57))%Z then Some (n - 48)%Z else None.

Fixpoint lstrip (s : bytes) : bytes :=
  match s with
  | [] => []
  | c :: s' => if is_space c then lstrip s' else s
  end.

Definition strip (s : bytes) : bytes := rev (lstrip (rev (lstrip s))).

(** Decimal digits, where a single underscore may stand between two digits.
    [prev] tells whether the previous byte was a digit. *)
Fixpoint digits (acc : Z) (prev : bool) (s : bytes) : option Z :=
  match s with
  | [] => if prev then Some acc else None
  | c :: s' =>
      match digit_of c with
      | Some d => digits (10 * acc + d)%Z true s'
      | None =>
          if Byte.eqb c "_"%byte && prev then digits acc false s' else None
      end
  end.

(** [int(value)] in base ten; [None] is [ValueError].  (The interpreter's
    configurable limit on the number of digits is not part of the model.) *)
Definition int (value : bytes) : option Z :=
  match strip value with
  | c :: r =>
      if Byte.eqb c "+"%byte then digits 0 false r
      else if Byte.eqb c "-"%byte then option_map Z.opp (digits 0 false r)
      else digits 0 false (c :: r)
  | [] => None
  end.

(** *** [str(n).encode("latin-1")] *)

Definition digit_byte (d : Z) : byte :=
  match Byte.of_N (Z.to_N (48 + d)) with
  | Some c => c
  | None => "0"%byte
  end.

(** The decimal digits of [n >= 0] in front of [acc]; [fuel] bounds the
    number of digits. *)
Fixpoint to_digits (fuel : nat) (n : Z) (acc : bytes) : bytes :=
  let acc' := digit_byte (n mod 10) :: acc in
  match fuel with
  | O => acc'
  | S fuel' => if (n <? 10)%Z then acc' else to_digits fuel' (n / 10) acc'
  end.

Definition decimal (n : Z) : bytes := to_digits (Z.to_nat (Z.log2 n)) n [].

(** [str(n).encode("latin-1")]: the digits and the sign are below 128, and
    latin-1 maps each of them to the byte of the same value. *)
Definition str_of_int (n : Z) : bytes :=
  if (n <? 0)%Z then "-"%byte :: decimal (- n) else decimal n.

(** *** [name.decode("ascii")], [s.lower()], [s.encode("ascii")] *)

(** [decode("ascii")]; [None] is [UnicodeDecodeError]. *)
Definition decode_ascii (s : bytes) : option str :=
  if forallb (fun c => (Byte.to_N c <? 128)%N) s
  then Some (map Byte.to_N s) else None.

(** [str.lower()] on ASCII text, the only text it is applied to here. *)
Definition lower (s : str) : str :=
  map (fun c => if ((65 <=? c) && (c <=? 90))%N then (c + 32)%N else c) s.

(** [encode("ascii")]; [None] is [UnicodeEncodeError]. *)
Fixpoint encode_ascii (s : str) : option bytes :=
  match s with
  | [] => Some []
  | c :: s' =>
      if (c <? 128)%N then
        match Byte.of_N c, encode_ascii s' with
        | Some x, Some r => Some (x :: r)
        | _, _ => None
        end
      else None
  end.

(** Every code point of [s] is below 128. *)
Definition is_ascii (s : str) : bool := forallb (fun c => (c <? 128)%N) s.

(** [html.escape(s)] with its default [quote=True]. *)
Fixpoint html_escape (s : str) : str :=
  match s with
  | [] => []
  | c :: s' =>
      (if (c =? 38)%N then u "&amp;"
       else if (c =? 60)%N then u "&lt;"
       else if (c =? 62)%N then u "&gt;"
       else if (c =? 34)%N then u "&quot;"
       else if (c =? 39)%N then u "&#x27;"
       else [c]) ++ html_escape s'
  end.

(** Truth value of an [Optional[str]]: [None] and the empty string are
    false. *)
Definition truthy (s : option str) : bool :=
  match s with
  | Some (_ :: _) => true
  | _ => false
  end.

End Py.

Import Py.

(* ===================================================================== *)
(** ** ASGI send events *)
(* ===================================================================== *)

Module ASGI.

Definition header : Type := bytes * bytes.

(** [HTTPResponseStartEvent]: the status line and the headers. *)
Record HTTPResponseStartEvent : Type := {
  status : Z;
  headers : list header
}.

(** [HTTPResponseBodyEvent]; [more_body] is read with
    [event.get("more_body", False)], so the key may be absent. *)
Record HTTPResponseBodyEvent : Type := {
  body : bytes;
  more_body : option bool
}.

(** [ASGISendEvent], discriminated by [event["type"]]. *)
Inductive ASGISendEvent : Type :=
| Start (e : HTTPResponseStartEvent)
| Body (e : HTTPResponseBodyEvent)
| Other (type : str).

Definition is_start (ev : ASGISendEvent) : bool :=
  match ev with Start _ => true | _ => false end.

Definition is_body (ev : ASGISendEvent) : bool :=
  match ev with Body _ => true | _ => false end.

(** The bytes of a body event; other events carry none. *)
Definition body_bytes (ev : ASGISendEvent) : bytes :=
  match ev with Body e => body e | _ => [] end.

(** All body bytes of an event sequence, in order. *)
Definition total_body (evs : list ASGISendEvent) : bytes :=
  concat (map body_bytes evs).

End ASGI.

Import ASGI.

(* ===================================================================== *)
(** ** [_add_to_content_length] and [ResponseMangler] *)
(* ===================================================================== *)

Module Mangler.

(** [name.decode("ascii").lower() == "content-length"]; raises
    [UnicodeDecodeError] on a name that is not ASCII. *)
Definition is_content_length (name : bytes) : result bool :=
  match decode_ascii name with
  | Some s => Ok (str_eqb (lower s) (u "content-length"))
  | None => Raise UnicodeDecodeError
  end.

(** One element of the list comprehension of [_add_to_content_length]. *)
Definition add_to_header (offset : Z) (h : header) : result header :=
  let '(name, value) := h in
  match is_content_length name with
  | Raise e => Raise e
  | Ok false => Ok (name, value)
  | Ok true =>
      match int value with
      | Some n => Ok (name, str_of_int (n + offset))
      | None => Raise ValueError
      end
  end.

(** The list comprehension: headers are rebuilt in order, and the first
    exception leaves the comprehension. *)
Fixpoint add_to_headers (offset : Z) (hs : list header) : result (list header) :=
  match hs with
  | [] => Ok []
  | h :: hs' =>
      match add_to_header offset h with
      | Raise e => Raise e
      | Ok h' =>
          match add_to_headers offset hs' with
          | Raise e => Raise e
          | Ok r => Ok (h' :: r)
          end
      end
  end.

(** [_add_to_content_length(event, offset)]: [event["headers"]] is replaced;
    the other keys of the event stay. *)
Definition _add_to_content_length (event : HTTPResponseStartEvent) (offset : Z)
  : result HTTPResponseStartEvent :=
  match add_to_headers offset (headers event) with
  | Ok hs => Ok {| status := status event; headers := hs |}
  | Raise e => Raise e
  end.

(** The attributes of a [ResponseMangler], and [sink]: the events passed so
    far to the underlying [self._send], oldest first. *)
Record ResponseMangler : Type := {
  _done : bool;
  _response_start : option HTTPResponseStartEvent;
  _body : bytes;
  sink : list ASGISendEvent
}.

(** [ResponseMangler.__init__]. *)
Definition init : ResponseMangler :=
  {| _done := false; _response_start := None; _body := []; sink := [] |}.

(** A method body: it reads and updates the object, and returns or raises. *)
Definition M (A : Type) : Type := ResponseMangler -> result A * ResponseMangler.

Definition ret {A : Type} (a : A) : M A := fun self => (Ok a, self).

Definition raise {A : Type} (e : exn) : M A := fun self => (Raise e, self).

Definition bind {A B : Type} (c : M A) (k : A -> M B) : M B :=
  fun self =>
    match c self with
    | (Ok a, self') => k a self'
    | (Raise e, self') => (Raise e, self')
    end.

Definition get {A : Type} (field : ResponseMangler -> A) : M A :=
  fun self => (Ok (field self), self).

Definition set_done (v : bool) : M unit :=
  fun self => (Ok tt, {| _done := v; _response_start := _response_start self;
                         _body := _body self; sink := sink self |}).

Definition set_response_start (v : option HTTPResponseStartEvent) : M unit :=
  fun self => (Ok tt, {| _done := _done self; _response_start := v;
                         _body := _body self; sink := sink self |}).

Definition set_body (v : bytes) : M unit :=
  fun self => (Ok tt, {| _done := _done self;
                         _response_start := _response_start self;
                         _body := v; sink := sink self |}).

(** [await self._send(event)]. *)
Definition _send (event : ASGISendEvent) : M unit :=
  fun self => (Ok tt, {| _done := _done self;
                         _response_start := _response_start self;
                         _body := _body self; sink := sink self ++ [event] |}).

Definition lift {A : Type} (r : result A) : M A := fun self => (r, self).

Declare Scope mangler_scope.
Delimit Scope mangler_scope with mangler.

Notation "'let*' x ':=' c 'in' k" := (bind c (fun x => k))
  (at level 10, x name, c at level 100, k at level 200) : mangler_scope.
Notation "c ';;;' k" := (bind c (fun _ => k))
  (at level 100, k at level 200, right associativity) : mangler_scope.

Local Open Scope mangler_scope.

Section Send.

(** [self._mangler]: all body bytes seen so far to the (possibly modified)
    body and whether the mangler is done. *)
Variable _mangler : bytes -> bytes * bool.

(** [ResponseMangler.send]. *)
Definition send (event : ASGISendEvent) : M unit :=
  let* done := get _done in
  if done then _send event
  else
    match event with
    | Start e => set_response_start (Some e)
    | Body e =>
        let* rs := get _response_start in
        match rs with
        | None => raise AssertionError
        | Some start =>
            let* seen := get _body in
            set_body (seen ++ body e) ;;;
            let* buffered := get _body in
            let old_len := len buffered in
            let '(mangled, done) := _mangler buffered in
            set_body mangled ;;;
            let new_len := len mangled in
            (* [start] is the dictionary that [self._response_start] refers
               to; [_add_to_content_length] updates it in place. *)
            let* start :=
              (if negb (new_len =? old_len)%Z then
                 let* start' :=
                   lift (_add_to_content_length start (new_len - old_len)) in
                 set_response_start (Some start') ;;; ret start'
               else ret start) in
            let more := match more_body e with Some m => m | None => false end in
            if done || negb more then
              set_done true ;;;
              _send (Start start) ;;;
              let* out := get _body in
              _send (Body {| body := out; more_body := Some more |}) ;;;
              set_response_start None ;;;
              set_body []
            else ret tt
        end
    | Other _ => ret tt
    end.

(** The application calls [send] once per event; an exception ends the
    calls. *)
Fixpoint send_all (events : list ASGISendEvent) : M unit :=
  match events with
  | [] => ret tt
  | ev :: rest => send ev ;;; send_all rest
  end.

(** The outcome and the object after [events], from a new mangler. *)
Definition run (events : list ASGISendEvent) : result unit * ResponseMangler :=
  send_all events init.

End Send.

(** The body events of a response whose body is delivered as [chunks]:
    [more_body] is true on every event but the last. *)
Fixpoint body_events (chunks : list bytes) : list ASGISendEvent :=
  match chunks with
  | [] => []
  | [c] => [Body {| body := c; more_body := Some false |}]
  | c :: rest => Body {| body := c; more_body := Some true |} :: body_events rest
  end.

(** A response: one start event, then the body events. *)
Definition response (start : HTTPResponseStartEvent) (chunks : list bytes)
  : list ASGISendEvent :=
  Start start :: body_events chunks.

(** *** Observations on headers and on what reached the sink *)

(** Every header name is ASCII, as HTTP requires of a field name. *)
Definition ascii_names (hs : list header) : bool :=
  forallb (fun h => match decode_ascii (fst h) with
                    | Some _ => true
                    | None => false
                    end) hs.

(** The header is a [Content-Length] header, in any letter case. *)
Definition names_content_length (name : bytes) : bool :=
  match is_content_length name with
  | Ok true => true
  | _ => false
  end.

(** The value of the header reads as the integer [n]. *)
Definition value_is (n : Z) (value : bytes) : bool :=
  match int value with
  | Some m => (m =? n)%Z
  | None => false
  end.

(** The headers declare [Content-Length = n]: there is such a header, and
    each one reads as [n]. *)
Definition declares_content_length (hs : list header) (n : Z) : bool :=
  existsb (fun h => names_content_length (fst h)) hs
  && forallb (fun h => negb (names_content_length (fst h)) || value_is n (snd h)) hs.

(** [h'] is [h] with a [Content-Length] value that reads as [n]; any other
    header is unchanged. *)
Definition corrected_header (n : Z) (h h' : header) : Prop :=
  fst h' = fst h /\
  if names_content_length (fst h) then value_is n (snd h') = true
  else snd h' = snd h.

(** Adjacent body events merged into one, which carries their bytes in
    order and the [more_body] of the last: what the transport has received
    once the events are written out. *)
Fixpoint coalesce (evs : list ASGISendEvent) : list ASGISendEvent :=
  match evs with
  | [] => []
  | Body e1 :: rest =>
      match coalesce rest with
      | Body e2 :: rest' =>
          Body {| body := body e1 ++ body e2; more_body := more_body e2 |} :: rest'
      | merged => Body e1 :: merged
      end
  | ev :: rest => ev :: coalesce rest
  end.

(** What the sink may hold while a response of status [st] is sent: nothing
    as long as the object is not done; once it is done, one start event of
    that status and behind it body events only. *)
Definition start_leads (st : Z) (self : ResponseMangler) : Prop :=
  (_done self = false /\ sink self = [])
  \/ (_done self = true /\
      exists start' rest,
        sink self = Start start' :: rest /\ status start' = st /\
        forallb is_body rest = true).

(** The object that holds the start event and the body bytes [acc], and has
    sent nothing. *)
Definition buffering (start : HTTPResponseStartEvent) (acc : bytes)
  : ResponseMangler :=
  {| _done := false; _response_start := Some start; _body := acc; sink := [] |}.

(** What holds of the object at every moment of a response with status
    [st]: nothing has reached the sink while the object is not done, and once
    it is done the sink holds one start event, of that status, followed by
    body events only. *)
Definition start_first (st : Z) (self : ResponseMangler) : Prop :=
  (_done self = false /\
   (exists cur, _response_start self = Some cur /\ status cur = st) /\
   sink self = [])
  \/ (_done self = true /\
      exists start' rest,
        sink self = Start start' :: rest /\ status start' = st /\
        forallb is_body rest = true).

End Mangler.

Import Mangler.

(* ===================================================================== *)
(** ** [autoreload_url] and [InjectAutoreloadMiddleware] *)
(* ===================================================================== *)

Module Middleware.

(** The connection scope, as far as [__call__] reads it. *)
Record Scope : Type := {
  type : str;
  path : str
}.

(** An ASGI application, seen from its [send] argument: the events it
    sends for a scope, in order. *)
Definition ASGI3Application : Type := Scope -> list ASGISendEvent.

Record InjectAutoreloadMiddleware : Type := {
  app : ASGI3Application;
  script : bytes
}.

(** The marker that [mangle_callback] looks for. *)
Definition head_end : bytes := b "</head>".

(** [mangle_callback], the closure of [__call__] over [self.script]. *)
Definition mangle_callback (script : bytes) (body : bytes) : bytes * bool :=
  if contains head_end body
  then (replace_first head_end script body, true)
  else (body, false).

(** The start event that is sent once [mangle_callback] has replaced the
    marker: its length header moves by the change of the body length, if
    there is a change. *)
Definition corrected_start (script : bytes) (start : HTTPResponseStartEvent)
  : result HTTPResponseStartEvent :=
  if (len script =? len head_end)%Z then Ok start
  else _add_to_content_length start (len script - len head_end).

(** The text of the f-string of [__init__]; code point 34 is the double
    quote and 10 the line feed. *)
Definition script_text (ws_url : str) : str :=
  u "  <script src=" ++ [34%N] ++ u "__shared/shiny-autoreload.js" ++ [34%N]
    ++ u " data-ws-url=" ++ [34%N] ++ html_escape ws_url ++ [34%N]
    ++ u "></script>" ++ [10%N] ++ u "</head>".

Section Init.

(** [get_proxy_url] is imported from [shiny/_hostenv.py] and not embedded
    here: a parameter, taken to return a URL for every URL. *)
Variable get_proxy_url : str -> str.

(** The class of the extra arguments; only their number is inspected. *)
Variable object : Type.

(** [autoreload_url()]; [port] is [os.getenv("SHINY_AUTORELOAD_PORT")]. *)
Definition autoreload_url (port : option str) : option str :=
  match port with
  | Some ((_ :: _) as p) =>
      Some (get_proxy_url (u "ws://127.0.0.1:" ++ p ++ u "/autoreload"))
  | _ => None
  end.

(** [InjectAutoreloadMiddleware.__init__(app, *args, **kwargs)] in an
    environment where [SHINY_AUTORELOAD_PORT] is [port]. *)
Definition __init__ (port : option str) (app : ASGI3Application)
    (args : list object) (kwargs : list (str * object))
  : result InjectAutoreloadMiddleware :=
  if (0 <? len args)%Z || (0 <? len kwargs)%Z then Raise TypeError
  else
    let ws_url := autoreload_url port in
    match ws_url with
    | Some ((_ :: _) as url) =>
        match encode_ascii (script_text url) with
        | Some s => Ok {| app := app; script := s |}
        | None => Raise UnicodeEncodeError
        end
    | _ => Ok {| app := app; script := [] |}
    end.

End Init.

(** [await self.app(scope, receive, send)]: the application sends straight
    to the caller's [send]. *)
Definition call_app (self : InjectAutoreloadMiddleware) (scope : Scope)
  : result unit * list ASGISendEvent :=
  (Ok tt, app self scope).

(** [InjectAutoreloadMiddleware.__call__]: the outcome, and the events that
    reach the caller's [send]. *)
Definition __call__ (self : InjectAutoreloadMiddleware) (scope : Scope)
  : result unit * list ASGISendEvent :=
  if negb (str_eqb (type scope) (u "http")) then call_app self scope
  else if negb (str_eqb (path scope) (u "/")) || (len (script self) =? 0)%Z
  then call_app self scope
  else
    let '(r, mangler) := run (mangle_callback (script self)) (app self scope) in
    (r, sink mangler).

End Middleware.

Import Middleware.

(* ===================================================================== *)
(** ** The reload server of the parent process *)
(* ===================================================================== *)

Module Server.

Import ITreeNotations.
Local Open Scope itree_scope.

(** What [nudge] does to the outside: [webbrowser.open(url, new)],
    [reload_now.set()] and [reload_now.clear()]. *)
Inductive effect : Type :=
| BrowserOpen (url : str) (new : Z)
| EventSet
| EventClear.

(** The variables that [nudge] closes over, and the effects so far. *)
Record Closure : Type := {
  launch_browser : bool;
  effects : list effect
}.

(** [nudge()]. *)
Definition nudge (app_url : str) (c : Closure) : Closure :=
  let c1 :=
    if launch_browser c
    then {| launch_browser := false;
            effects := effects c ++ [BrowserOpen app_url 1] |}
    else c in
  {| launch_browser := launch_browser c1;
     effects := effects c1 ++ [EventSet; EventClear] |}.

(** [n] calls of [nudge], one after the other, on the shared closure. *)
Fixpoint nudges (app_url : str) (n : nat) (c : Closure) : Closure :=
  match n with
  | O => c
  | S m => nudge app_url (nudges app_url m c)
  end.

(** [n] pulses of [reload_now]: [set()] and at once [clear()]. *)
Fixpoint pulses (n : nat) : list effect :=
  match n with
  | O => []
  | S m => pulses m ++ [EventSet; EventClear]
  end.

Definition is_browser_open (e : effect) : bool :=
  match e with BrowserOpen _ _ => true | _ => false end.

(** The frame that [conn.recv()] returns. *)
Inductive Data : Type :=
| Text (s : str)
| Binary (d : bytes).

(** The calls of [reload_server] to its surroundings.  [Send] answers
    [false] and [Recv] answers [None] when [ConnectionClosed] is raised. *)
Variant connE : Type -> Type :=
| Wait : connE unit
| Send (message : str) : connE bool
| Recv : connE (option Data)
| Nudge : connE unit.

(** How a call [headers.get(name)] on a [websockets.Headers] ends: it
    returns [None] when no header line has that name, it returns the value
    when one line has it, and it raises [MultipleValuesError] when several
    lines have it ([get] catches [KeyError] only). *)
Inductive lookup : Type :=
| Absent
| Value (v : str)
| Repeated.

(** The header lines of a request, and [get] on the [Headers] made of
    them; names compare without regard to letter case. *)
Definition header_lines : Type := list (str * str).

Definition lines_named (lines : header_lines) (name : str) : header_lines :=
  filter (fun kv => str_eqb (lower (fst kv)) (lower name)) lines.

Definition lines_get (lines : header_lines) (name : str) : lookup :=
  match lines_named lines name with
  | [] => Absent
  | [kv] => Value (snd kv)
  | _ :: _ :: _ => Repeated
  end.

Section Handlers.

(** [websockets.Headers] and its [get], from the websockets package: the
    handlers only ask for the value of one header. *)
Variable Headers : Type.
Variable get : Headers -> str -> option str.

Record Request : Type := {
  path : str;
  headers : Headers
}.

Record Response : Type := {
  status_code : Z;
  reason_phrase : str;
  response_headers : list (str * str)
}.

Variable secret : str.
Variable app_url : str.

(** [http.HTTPStatus.MOVED_PERMANENTLY]. *)
Definition MOVED_PERMANENTLY : Z := 301.

(** [process_request(connection, request)]; [upgrade] is how
    [request.headers.get("Upgrade")] ends.  The exception of a repeated
    header leaves [process_request]. *)
Definition process_request (upgrade : lookup) : result (option Response) :=
  match upgrade with
  | Absent =>
      Ok (Some {| status_code := MOVED_PERMANENTLY;
                  reason_phrase := u "Moved Permanently";
                  response_headers := [(u "Location", app_url)] |})
  | Value _ => Ok None
  | Repeated => Raise MultipleValuesError
  end.

(** [headers.get(name, default)]. *)
Definition get_default (h : Headers) (name default : str) : str :=
  match get h name with
  | Some v => v
  | None => default
  end.

(** The loop of the [/autoreload] branch; [ConnectionClosed] from
    [conn.send] ends the handler. *)
Definition autoreload_loop : itree connE (result unit) :=
  ITree.iter
    (fun _ : unit =>
       ITree.trigger Wait ;;
       sent <- ITree.trigger (Send (u "autoreload")) ;;
       Ret (if sent : bool then inl tt else inr (Ok tt)))
    tt.

(** [reload_server(conn)]; the argument is [conn.request]. *)
Definition reload_server (request : option Request) : itree connE (result unit) :=
  match request with
  | None => Ret (Raise RuntimeError)
  | Some req =>
      if str_eqb (path req) (u "/autoreload") then autoreload_loop
      else if str_eqb (path req) (u "/notify") then
        let req_secret := get_default (headers req) (u "Shiny-Autoreload-Secret") [] in
        if negb (str_eqb req_secret secret) then Ret (Ok tt)
        else
          data <- ITree.trigger Recv ;;
          match data with
          | None => Ret (Ok tt)
          | Some (Text s) =>
              if str_eqb s (u "reload_end")
              then ITree.trigger Nudge ;; Ret (Ok tt)
              else Ret (Ok tt)
          | Some (Binary _) => Ret (Ok tt)
          end
      else Ret (Ok tt)
  end.

(** The peer of a connection: the frames it will send before it closes, and
    how many frames it accepts before it closes. *)
Record Peer : Type := {
  inbox : list Data;
  accepts : nat
}.

(** What a handler has done to its connection. *)
Inductive action : Type :=
| Waited
| Sent (message : str)
| Received (frame : option Data)
| Nudged.

Record Run : Type := {
  returned : option (result unit);
  actions : list action;
  peer : Peer;
  closure : Closure
}.

(** A handler run for at most [fuel] steps against a peer; every
    [reload_now.wait()] is taken to return.  [returned] is [None] when the
    handler is still running. *)
Fixpoint run_handler (fuel : nat) (t : itree connE (result unit))
    (acts : list action) (p : Peer) (c : Closure) : Run :=
  match fuel with
  | O => {| returned := None; actions := acts; peer := p; closure := c |}
  | S fuel' =>
      match observe t with
      | RetF r => {| returned := Some r; actions := acts; peer := p; closure := c |}
      | TauF t' => run_handler fuel' t' acts p c
      | VisF e k =>
          match e in connE T return (T -> itree connE (result unit)) -> Run with
          | Wait => fun k => run_handler fuel' (k tt) (acts ++ [Waited]) p c
          | Send m => fun k =>
              match accepts p with
              | O => run_handler fuel' (k false) acts p c
              | S n =>
                  run_handler fuel' (k true) (acts ++ [Sent m])
                    {| inbox := inbox p; accepts := n |} c
              end
          | Recv => fun k =>
              match inbox p with
              | [] => run_handler fuel' (k None) (acts ++ [Received None]) p c
              | d :: rest =>
                  run_handler fuel' (k (Some d)) (acts ++ [Received (Some d)])
                    {| inbox := rest; accepts := accepts p |} c
              end
          | Nudge => fun k =>
              run_handler fuel' (k tt) (acts ++ [Nudged]) p (nudge app_url c)
          end k
      end
  end.

End Handlers.

End Server.

(* ===================================================================== *)
(** ** Sample inputs *)
(* ===================================================================== *)

Module Samples.

(** A script fragment as [__init__] builds it for port 8123 with a
    [get_proxy_url] that returns its argument. *)
Definition sample_script : bytes :=
  match encode_ascii (script_text (u "ws://127.0.0.1:8123/autoreload")) with
  | Some s => s
  | None => []
  end.

(** A 26-byte page and its start event. *)
Definition sample_start : HTTPResponseStartEvent :=
  {| status := 200;
     headers := [(b "content-type", b "text/html");
                 (b "Content-Length", b "26")] |}.

(** The same start event with one more header, whose name has the byte
    0xE9. *)
Definition latin1_name_start : HTTPResponseStartEvent :=
  {| status := 200;
     headers := [(b "content-type", b "text/html");
                 (b "Content-Length", b "26");
                 ([xe9], b "1")] |}.

(** The page in three chunks; the marker is cut by the first boundary. *)
Definition sample_chunks : list bytes :=
  [b "<head></he"; b "ad><body>"; b "</body>"].

(** A page without the marker, and its start event. *)
Definition plain_start : HTTPResponseStartEvent :=
  {| status := 200; headers := [(b "content-length", b "11")] |}.

Definition plain_chunks : list bytes := [b "hello"; b " "; b "world"].

(** Request headers as a list of fields, looked up by name without regard
    to letter case. *)
Definition field_get (h : list (str * str)) (name : str) : option str :=
  match find (fun kv => str_eqb (lower (fst kv)) (lower name)) h with
  | Some kv => Some (snd kv)
  | None => None
  end.

(** A [/notify] request that presents the secret [s]. *)
Definition notify_request (s : str) : Server.Request (list (str * str)) :=
  {| Server.path := u "/notify";
     Server.headers := [(u "Shiny-Autoreload-Secret", s)] |}.

(** A plain GET of the reload port, and a WebSocket handshake. *)
Definition plain_request : Server.Request (list (str * str)) :=
  {| Server.path := u "/autoreload";
     Server.headers := [(u "Host", u "127.0.0.1:8123")] |}.

Definition upgrade_request : Server.Request (list (str * str)) :=
  {| Server.path := u "/autoreload";
     Server.headers := [(u "Host", u "127.0.0.1:8123");
                        (u "Upgrade", u "websocket")] |}.

(** The header lines of a plain GET, of a WebSocket handshake, and of a
    request that names [Upgrade] on two lines. *)
Definition plain_lines : Server.header_lines :=
  [(u "Host", u "127.0.0.1:8123")].

Definition upgrade_lines : Server.header_lines :=
  [(u "Host", u "127.0.0.1:8123"); (u "Upgrade", u "websocket")].

Definition repeated_upgrade_lines : Server.header_lines :=
  [(u "Host", u "127.0.0.1:8123"); (u "Upgrade", u "websocket");
   (u "upgrade", u "h2c")].

(** A peer that sends the frame of [reload_end()]. *)
Definition worker_peer : Server.Peer :=
  {| Server.inbox := [Server.Text (u "reload_end")]; Server.accepts := 0 |}.

Definition first_start : Server.Closure :=
  {| Server.launch_browser := true; Server.effects := [] |}.

End Samples.

(* ===================================================================== *)
(** ** The worker process and the start of the reload server *)
(* ===================================================================== *)

Module Process.

Import ITreeNotations.
Local Open Scope itree_scope.

(** [os.environ]: the value of each variable that is set. *)
Definition environ : Type := str -> option str.

(** [os.getenv(key)] and [os.getenv(key, default)]. *)
Definition getenv (env : environ) (key : str) : option str := env key.

Definition getenv_or (env : environ) (key default : str) : str :=
  match env key with
  | Some v => v
  | None => default
  end.

(** [os.environ[key] = value]. *)
Definition setitem (key value : str) (env : environ) : environ :=
  fun k => if str_eqb k key then Some value else env k.

(** [str(n)] for an integer: the characters of its decimal. *)
Definition str_of_Z (n : Z) : str := map Byte.to_N (str_of_int n).

(** [sub in s] for [str]. *)
Fixpoint str_prefixb (sub s : str) : bool :=
  match sub, s with
  | [], _ => true
  | _ :: _, [] => false
  | x :: sub', y :: s' => N.eqb x y && str_prefixb sub' s'
  end.

Fixpoint str_contains (sub s : str) : bool :=
  if str_prefixb sub s then true
  else match s with
       | [] => false
       | _ :: s' => str_contains sub s'
       end.

(** How [websockets.asyncio.client.connect] ends: with a connection, with
    [ConnectionClosed], or with another exception. *)
Inductive connect_result : Type :=
| Connected
| ClosedOnConnect
| ConnectFailed.

(** The calls of the coroutine of [reload_end] to the websockets client.
    [Frame] answers [false] when [ConnectionClosed] is raised; [Leave] is the
    exit of the [async with] block. *)
Variant clientE : Type -> Type :=
| Connect (url : str) (additional_headers : list (str * str)) : clientE connect_result
| Frame (message : str) : clientE bool
| Leave : clientE unit.

(** How the task ends: it returns, or an exception that it does not catch
    leaves it. *)
Inductive task_end : Type :=
| Finished
| Crashed.

(** The coroutine [_] of [reload_end]; the secret is read when it runs. *)
Definition notify_task (env : environ) (url : str) : itree clientE task_end :=
  let options :=
    [(u "Shiny-Autoreload-Secret",
      getenv_or env (u "SHINY_AUTORELOAD_SECRET") [])] in
  c <- ITree.trigger (Connect url options) ;;
  match c with
  | Connected =>
      ITree.trigger (Frame (u "reload_end")) ;;
      ITree.trigger Leave ;;
      Ret Finished
  | ClosedOnConnect => Ret Finished
  | ConnectFailed => Ret Crashed
  end.

(** [reload_begin()]. *)
Definition reload_begin : option (itree clientE task_end) := None.

(** [reload_end()]: the task that it creates, if any. *)
Definition reload_end (env : environ) : option (itree clientE task_end) :=
  match getenv env (u "SHINY_AUTORELOAD_PORT") with
  | Some ((_ :: _) as port) =>
      let url := u "ws://127.0.0.1:" ++ port ++ u "/notify" in
      Some (notify_task env url)
  | _ => None
  end.

(** [HotReloadHandler.emit(record)]; [message] is [record.getMessage()]. *)
Definition emit (env : environ) (message : str) : option (itree clientE task_end) :=
  if str_contains (u "Reloading...") message then reload_begin
  else if str_contains (u "Application startup complete.") message
  then reload_end env
  else None.

(** The network as a task meets it: how [connect] ends, and how many frames
    the server takes before the connection is closed. *)
Record Network : Type := {
  answer : connect_result;
  takes : nat
}.

Inductive client_action : Type :=
| Opened (url : str) (additional_headers : list (str * str))
| Framed (message : str)
| Left.

(** A task run for at most [fuel] steps; the end is [None] when the task is
    still running. *)
Fixpoint run_task (fuel : nat) (t : itree clientE task_end)
    (acts : list client_action) (net : Network)
  : option task_end * list client_action :=
  match fuel with
  | O => (None, acts)
  | S fuel' =>
      match observe t with
      | RetF r => (Some r, acts)
      | TauF t' => run_task fuel' t' acts net
      | VisF e k =>
          match e in clientE T
                return (T -> itree clientE task_end) ->
                       option task_end * list client_action with
          | Connect url hs => fun k =>
              run_task fuel' (k (answer net))
                (match answer net with
                 | Connected => acts ++ [Opened url hs]
                 | _ => acts
                 end) net
          | Frame m => fun k =>
              match takes net with
              | O => run_task fuel' (k false) acts net
              | S n =>
                  run_task fuel' (k true) (acts ++ [Framed m])
                    {| answer := answer net; takes := n |}
              end
          | Leave => fun k => run_task fuel' (k tt) (acts ++ [Left]) net
          end k
      end
  end.

Section Start.

Variable get_proxy_url : str -> str.

(** What [start_server] leaves behind: the environment, the level set on
    the [websockets] logger, and the arguments of [_thread_main]. *)
Record Started : Type := {
  environment : environ;
  websockets_level : str;
  thread_port : Z;
  thread_app_url : str;
  thread_secret : str;
  thread_launch_browser : bool
}.

(** [start_server(port, app_port, launch_browser)]; [secret] is what
    [secrets.token_hex(32)] returns. *)
Definition start_server (secret : str) (env : environ)
    (port app_port : Z) (launch_browser : bool) : Started :=
  let env1 := setitem (u "SHINY_AUTORELOAD_PORT") (str_of_Z port) env in
  let env2 := setitem (u "SHINY_AUTORELOAD_SECRET") secret env1 in
  let loglevel := getenv_or env2 (u "SHINY_AUTORELOAD_LOG_LEVEL") (u "CRITICAL") in
  let app_url :=
    get_proxy_url (u "http://127.0.0.1:" ++ str_of_Z app_port ++ u "/") in
  {| environment := env2;
     websockets_level := loglevel;
     thread_port := port;
     thread_app_url := app_url;
     thread_secret := secret;
     thread_launch_browser := launch_browser |}.

End Start.

Section Serve.

Variable Headers : Type.
Variable get : Headers -> str -> option str.

(** What [_coro_main] hands to [websockets.asyncio.server.serve], and the
    variables its closures share. *)
Record Serving : Type := {
  handler : option (Server.Request Headers) -> itree Server.connE (result unit);
  on_request : Server.lookup -> result (option Server.Response);
  host : str;
  listen_port : Z;
  shared : Server.Closure
}.

(** [_thread_main] runs [_coro_main] with the arguments of the thread. *)
Definition _coro_main (port : Z) (app_url secret : str) (launch_browser : bool)
  : Serving :=
  {| handler := Server.reload_server get secret;
     on_request := Server.process_request app_url;
     host := u "127.0.0.1";
     listen_port := port;
     shared := {| Server.launch_browser := launch_browser;
                  Server.effects := [] |} |}.

Definition _thread_main (s : Started) : Serving :=
  _coro_main (thread_port s) (thread_app_url s) (thread_secret s)
    (thread_launch_browser s).

End Serve.

End Process.

(* ===================================================================== *)
(** ** Further observations *)
(* ===================================================================== *)

Module Shapes.

(** The object after [events] given to a new mangler [f], whatever they
    are: nothing sent while it is not done.  Once it is done, its buffers
    are released; the events are [pre], the body event [e] that flushed, and
    [rest]; the events of [pre] were taken without an exception and left
    the object not done; and the sink holds a start event, one body event
    with the mangled buffer and the [more_body] of [e], and then exactly
    [rest]. *)
Definition flushed_shape (f : bytes -> bytes * bool)
    (events : list ASGISendEvent) (self : ResponseMangler) : Prop :=
  (_done self = false /\ sink self = [])
  \/ (_done self = true /\ _body self = [] /\ _response_start self = None /\
      exists pre e rest start',
        events = pre ++ Body e :: rest /\
        fst (run f pre) = Ok tt /\
        _done (snd (run f pre)) = false /\
        sink self =
          Start start'
          :: Body {| body := fst (f (_body (snd (run f pre)) ++ body e));
                     more_body := Some (match more_body e with
                                        | Some m => m
                                        | None => false
                                        end) |}
          :: rest).

(** The value of the header reads as an integer. *)
Definition reads_as_int (value : bytes) : bool :=
  match int value with
  | Some _ => true
  | None => false
  end.

(** The headers that [_add_to_content_length] can rebuild: every name is
    ASCII and every [Content-Length] value reads as an integer. *)
Definition correctable (hs : list header) : bool :=
  forallb (fun h =>
             match decode_ascii (fst h) with
             | Some _ =>
                 negb (names_content_length (fst h)) || reads_as_int (snd h)
             | None => false
             end) hs.

(** There is no [Content-Length] header. *)
Definition no_content_length (hs : list header) : bool :=
  forallb (fun h => negb (names_content_length (fst h))) hs.

(** There is a [Content-Length] header that does not read as an integer. *)
Definition bad_content_length (hs : list header) : bool :=
  existsb (fun h => names_content_length (fst h) && negb (reads_as_int (snd h))) hs.

(** The code points that [html.escape] replaces. *)
Definition is_markup (c : N) : bool :=
  ((c =? 38) || (c =? 60) || (c =? 62) || (c =? 34) || (c =? 39))%N.

(** The default of [sys.int_max_str_digits]: [int] refuses a text of more
    digits and [str] refuses an integer of more digits. *)
Definition max_str_digits : nat := 4300.

(** The conversions of [_add_to_content_length] stay within that limit:
    no [Content-Length] value is longer than it, and the integer [total]
    that is written back has no more digits than it. *)
Definition within_digit_limit (hs : list header) (total : Z) : bool :=
  forallb (fun h => negb (names_content_length (fst h))
                    || (length (snd h) <=? max_str_digits)%nat) hs
  && (Z.abs total <? 10 ^ Z.of_nat max_str_digits)%Z.

(** Headers that [_add_to_content_length] rebuilds by [offset] within the
    digit limit: every name is ASCII, and every [Content-Length] value is
    no longer than the limit and reads as an integer whose sum with
    [offset] has no more digits than the limit. *)
Definition correctable_within (offset : Z) (hs : list header) : bool :=
  forallb (fun h =>
             match decode_ascii (fst h) with
             | Some _ =>
                 negb (names_content_length (fst h))
                 || ((length (snd h) <=? max_str_digits)%nat
                     && match int (snd h) with
                        | Some n =>
                            (Z.abs (n + offset) <? 10 ^ Z.of_nat max_str_digits)%Z
                        | None => false
                        end)
             | None => false
             end) hs.

(** The frame is the text frame that [reload_end] sends. *)
Definition is_reload_end (d : Server.Data) : bool :=
  match d with
  | Server.Text s => str_eqb s (u "reload_end")
  | Server.Binary _ => false
  end.

(** [k] rounds of the [/autoreload] loop: a wake-up, then a push. *)
Fixpoint pushes (k : nat) : list Server.action :=
  match k with
  | O => []
  | S k' => Server.Waited :: Server.Sent (u "autoreload") :: pushes k'
  end.

(** Body events that all announce more: a body that does not end. *)
Definition open_body_events (chunks : list bytes) : list ASGISendEvent :=
  map (fun c => Body {| body := c; more_body := Some true |}) chunks.

(** The request, if there is one, is not for [/notify]. *)
Definition not_notify (Headers : Type) (request : option (Server.Request Headers))
  : bool :=
  match request with
  | Some req => negb (str_eqb (Server.path req) (u "/notify"))
  | None => true
  end.



End Shapes.

Import Shapes.

(* ===================================================================== *)
(** ** Facts about the builtins *)
(* ===================================================================== *)

Module PyFacts.

Lemma prefixb_length (old s : bytes) :
  prefixb old s = true -> (length old <= length s)%nat.
Proof.
  revert s. induction old as [|x old IH]; intros [|y s] H; simpl in *;
    try lia; try discriminate.
  apply andb_true_iff in H. destruct H as [_ H]. apply IH in H. lia.
Qed.

Lemma prefixb_app (old s t : bytes) :
  (length old <= length s)%nat -> prefixb old (s ++ t) = prefixb old s.
Proof.
  revert s. induction old as [|x old IH]; intros [|y s] H; simpl in *;
    try reflexivity; try lia.
  rewrite IH by lia. reflexivity.
Qed.

Lemma contains_length (old s : bytes) :
  contains old s = true -> (length old <= length s)%nat.
Proof.
  induction s as [|c s IH]; simpl.
  - destruct (prefixb old []) eqn:E; [|discriminate].
    intros _. apply prefixb_length in E. exact E.
  - destruct (prefixb old (c :: s)) eqn:E.
    + intros _. apply prefixb_length in E. exact E.
    + intros H. apply IH in H. simpl. lia.
Qed.

Lemma contains_app (old s t : bytes) :
  contains old s = true -> contains old (s ++ t) = true.
Proof.
  induction s as [|c s IH]; simpl.
  - destruct (prefixb old []) eqn:E; [|discriminate]. intros _.
    destruct old; [|discriminate]. destruct t; reflexivity.
  - destruct (prefixb old (c :: s)) eqn:E.
    + intros _. change (c :: s ++ t) with ((c :: s) ++ t).
      rewrite prefixb_app, E; [reflexivity|]. apply prefixb_length. exact E.
    + intros H. rewrite (IH H). destruct (prefixb old (c :: s ++ t)); reflexivity.
Qed.

(** A body without the marker has no prefix with the marker. *)
Lemma contains_app_false (old s t : bytes) :
  contains old (s ++ t) = false -> contains old s = false.
Proof.
  intros H. destruct (contains old s) eqn:E; [|reflexivity].
  rewrite (contains_app _ _ t E) in H. discriminate.
Qed.

(** The leftmost occurrence of [old] in [s ++ t] is the one in [s]. *)
Lemma replace_first_app (old new s t : bytes) :
  contains old s = true ->
  replace_first old new (s ++ t) = replace_first old new s ++ t.
Proof.
  induction s as [|c s IH]; simpl.
  - destruct (prefixb old []) eqn:E; [|discriminate]. intros _.
    destruct old; [|discriminate]. simpl.
    destruct t; simpl; rewrite ?app_nil_r; reflexivity.
  - destruct (prefixb old (c :: s)) eqn:E.
    + intros _. pose proof (prefixb_length _ _ E) as L.
      change (c :: s ++ t) with ((c :: s) ++ t).
      rewrite prefixb_app, E by exact L.
      rewrite skipn_app.
      replace (length old - length (c :: s))%nat with 0%nat by lia.
      simpl (skipn 0 t). rewrite app_assoc. reflexivity.
    + intros H. pose proof (contains_length _ _ H) as L.
      change (c :: s ++ t) with ((c :: s) ++ t).
      rewrite prefixb_app, E by (simpl; lia).
      simpl. rewrite (IH H). reflexivity.
Qed.

(** Replacing one occurrence changes the length by the difference of the
    lengths of the replacement and of what it replaces. *)
Lemma replace_first_len (old new s : bytes) :
  contains old s = true ->
  len (replace_first old new s) = (len s + (len new - len old))%Z.
Proof.
  unfold len. induction s as [|c s IH]; cbn [contains replace_first].
  - destruct (prefixb old []) eqn:E; [|discriminate]. intros _.
    destruct old; [|discriminate]. cbn [skipn length].
    rewrite app_nil_r. cbn [length]. lia.
  - destruct (prefixb old (c :: s)) eqn:E.
    + intros _. pose proof (prefixb_length _ _ E) as L.
      rewrite length_app, length_skipn. lia.
    + intros H. specialize (IH H). cbn [length] in *. lia.
Qed.

(** *** [int(str(n))] *)

Lemma digit_cases (d : Z) :
  (0 <= d <= 9)%Z ->
  In d [0; 1; 2; 3; 4; 5; 6; 7; 8; 9]%Z.
Proof.
  intros H. simpl.
  assert (d = 0 \/ d = 1 \/ d = 2 \/ d = 3 \/ d = 4 \/ d = 5 \/ d = 6
          \/ d = 7 \/ d = 8 \/ d = 9)%Z as C by lia.
  intuition auto.
Qed.

Ltac each_digit d H :=
  apply digit_cases in H; simpl in H;
  repeat (destruct H as [H|H]; [subst d; reflexivity|]); destruct H.

Lemma digit_of_digit_byte (d : Z) :
  (0 <= d <= 9)%Z -> digit_of (digit_byte d) = Some d.
Proof. intros H. each_digit d H. Qed.

Lemma digit_byte_not_space (d : Z) :
  (0 <= d <= 9)%Z -> is_space (digit_byte d) = false.
Proof. intros H. each_digit d H. Qed.

Lemma digit_byte_not_sign (d : Z) :
  (0 <= d <= 9)%Z ->
  Byte.eqb (digit_byte d) "+"%byte = false /\
  Byte.eqb (digit_byte d) "-"%byte = false.
Proof. intros H. split; each_digit d H. Qed.

Lemma mod10_digit (n : Z) : (0 <= n mod 10 <= 9)%Z.
Proof. pose proof (Z.mod_pos_bound n 10). lia. Qed.

(** Reading back the digits of [n] yields [n]. *)
Lemma digits_to_digits (fuel : nat) :
  forall (n : Z) (rest : bytes) (prev : bool),
    (0 <= n < 10 * 2 ^ Z.of_nat fuel)%Z ->
    digits 0 prev (to_digits fuel n rest) = digits n true rest.
Proof.
  induction fuel as [|fuel IH]; intros n rest prev Hn.
  - cbn [to_digits digits]. rewrite digit_of_digit_byte by apply mod10_digit.
    change (2 ^ Z.of_nat 0)%Z with 1%Z in Hn.
    rewrite Z.mod_small by lia. f_equal.
  - cbn [to_digits]. destruct (n <? 10)%Z eqn:E.
    + apply Z.ltb_lt in E. cbn [digits].
      rewrite digit_of_digit_byte by apply mod10_digit.
      rewrite Z.mod_small by lia. f_equal.
    + apply Z.ltb_ge in E. rewrite IH.
      * cbn [digits]. rewrite digit_of_digit_byte by apply mod10_digit.
        f_equal. pose proof (Z.div_mod n 10). lia.
      * rewrite Nat2Z.inj_succ, Z.pow_succ_r in Hn by lia.
        split; [apply Z.div_pos; lia|].
        apply Z.div_lt_upper_bound; lia.
Qed.

Lemma to_digits_head (fuel : nat) :
  forall (n : Z) (rest : bytes),
    exists d tl, (0 <= d <= 9)%Z /\ to_digits fuel n rest = digit_byte d :: tl.
Proof.
  induction fuel as [|fuel IH]; intros n rest; cbn [to_digits].
  - exists (n mod 10)%Z, rest. split; [apply mod10_digit | reflexivity].
  - destruct (n <? 10)%Z.
    + exists (n mod 10)%Z, rest. split; [apply mod10_digit | reflexivity].
    + apply IH.
Qed.

Lemma to_digits_not_space (fuel : nat) :
  forall (n : Z) (rest : bytes),
    Forall (fun c => is_space c = false) rest ->
    Forall (fun c => is_space c = false) (to_digits fuel n rest).
Proof.
  induction fuel as [|fuel IH]; intros n rest H; cbn [to_digits].
  - constructor; [apply digit_byte_not_space, mod10_digit | exact H].
  - destruct (n <? 10)%Z.
    + constructor; [apply digit_byte_not_space, mod10_digit | exact H].
    + apply IH. constructor; [apply digit_byte_not_space, mod10_digit | exact H].
Qed.

Lemma lstrip_not_space (s : bytes) :
  Forall (fun c => is_space c = false) s -> lstrip s = s.
Proof.
  intros H. destruct H as [|c s Hc _]; [reflexivity|].
  cbn [lstrip]. rewrite Hc. reflexivity.
Qed.

Lemma strip_not_space (s : bytes) :
  Forall (fun c => is_space c = false) s -> strip s = s.
Proof.
  intros H. unfold strip. rewrite (lstrip_not_space H).
  rewrite lstrip_not_space by (apply Forall_rev; exact H).
  apply rev_involutive.
Qed.

Lemma decimal_bound (n : Z) :
  (0 <= n)%Z -> (0 <= n < 10 * 2 ^ Z.of_nat (Z.to_nat (Z.log2 n)))%Z.
Proof.
  intros H. rewrite Z2Nat.id by apply Z.log2_nonneg.
  destruct (Z.eq_dec n 0) as [->|Hn]; [cbn; lia|].
  pose proof (Z.log2_spec n ltac:(lia)) as [_ Hu].
  rewrite Z.pow_succ_r in Hu by apply Z.log2_nonneg. lia.
Qed.

(** [int(str(n).encode("latin-1")) == n]. *)
Lemma int_str_of_int (n : Z) : int (str_of_int n) = Some n.
Proof.
  unfold int, str_of_int. destruct (n <? 0)%Z eqn:E.
  - apply Z.ltb_lt in E. rewrite strip_not_space.
    + change (Byte.eqb "-" "+") with false. change (Byte.eqb "-" "-") with true.
      cbv iota. unfold decimal. rewrite digits_to_digits by (apply decimal_bound; lia).
      cbn. f_equal. lia.
    + constructor; [reflexivity|]. apply to_digits_not_space. constructor.
  - apply Z.ltb_ge in E. rewrite strip_not_space
      by (apply to_digits_not_space; constructor).
    unfold decimal.
    destruct (to_digits_head (Z.to_nat (Z.log2 n)) n []) as (d & tl & Hd & Heq).
    pose proof (digits_to_digits (Z.to_nat (Z.log2 n)) [] false (decimal_bound E)) as R.
    rewrite Heq in *. destruct (digit_byte_not_sign Hd) as [-> ->].
    rewrite R. reflexivity.
Qed.

End PyFacts.

Import PyFacts.

(* ===================================================================== *)
(** ** Facts about [_add_to_content_length] *)
(* ===================================================================== *)

Module HeaderFacts.

Lemma value_is_str_of_int (n : Z) : value_is n (str_of_int n) = true.
Proof. unfold value_is. rewrite int_str_of_int. apply Z.eqb_refl. Qed.

Lemma names_content_length_ascii (name : bytes) :
  decode_ascii name <> None ->
  is_content_length name = Ok (names_content_length name).
Proof.
  unfold names_content_length, is_content_length.
  destruct (decode_ascii name) as [s|]; [|congruence].
  intros _. destruct (str_eqb (lower s) (u "content-length")); reflexivity.
Qed.

(** On ASCII names and [Content-Length] values that read as [n], the
    headers are rebuilt without an exception: each [Content-Length] value
    becomes the decimal of [n + offset], and nothing else changes. *)
Lemma add_to_headers_declared (offset n : Z) (hs : list header) :
  ascii_names hs = true ->
  forallb (fun h => negb (names_content_length (fst h)) || value_is n (snd h)) hs
    = true ->
  exists hs',
    add_to_headers offset hs = Ok hs' /\
    Forall2 (corrected_header (n + offset)) hs hs'.
Proof.
  induction hs as [|[name value] hs IH]; intros Ha Hv.
  - exists []. split; [reflexivity | constructor].
  - cbn [ascii_names forallb fst snd] in Ha, Hv.
    apply andb_true_iff in Ha. destruct Ha as [Ha1 Ha2].
    apply andb_true_iff in Hv. destruct Hv as [Hv1 Hv2].
    destruct (IH Ha2 Hv2) as (hs' & E & F).
    cbn [add_to_headers add_to_header].
    rewrite names_content_length_ascii
      by (destruct (decode_ascii name); [discriminate | discriminate Ha1]).
    destruct (names_content_length name) eqn:C.
    + cbn [negb orb] in Hv1. unfold value_is in Hv1.
      destruct (int value) as [m|]; [|discriminate].
      apply Z.eqb_eq in Hv1. subst m. rewrite E.
      eexists. split; [reflexivity|]. constructor; [|exact F].
      split; [reflexivity|]. cbn [fst snd]. rewrite C.
      apply value_is_str_of_int.
    + rewrite E. eexists. split; [reflexivity|]. constructor; [|exact F].
      split; [reflexivity|]. cbn [fst snd]. rewrite C. reflexivity.
Qed.

Lemma corrected_declares (n : Z) (hs hs' : list header) :
  Forall2 (corrected_header n) hs hs' ->
  existsb (fun h => names_content_length (fst h)) hs = true ->
  declares_content_length hs' n = true.
Proof.
  unfold declares_content_length.
  induction 1 as [|h h' hs hs' [Hn Hc] F IH]; intros Hex; [discriminate|].
  cbn [existsb forallb] in *. rewrite Hn.
  destruct (names_content_length (fst h)) eqn:C.
  - rewrite Hc. cbn [orb negb andb].
    clear Hex IH. induction F as [|k k' ks ks' [Kn Kc] F IHF]; [reflexivity|].
    cbn [forallb]. rewrite Kn.
    destruct (names_content_length (fst k)); [rewrite Kc|]; cbn [negb orb andb];
      exact IHF.
  - cbn [orb negb andb] in *. exact (IH Hex).
Qed.

Lemma corrected_names (n : Z) (hs hs' : list header) :
  Forall2 (corrected_header n) hs hs' -> map fst hs' = map fst hs.
Proof.
  induction 1 as [|h h' hs hs' [Hn _] F IH]; [reflexivity|].
  cbn [map]. rewrite Hn, IH. reflexivity.
Qed.

Lemma corrected_refl (n : Z) (hs : list header) :
  forallb (fun h => negb (names_content_length (fst h)) || value_is n (snd h)) hs
    = true ->
  Forall2 (corrected_header n) hs hs.
Proof.
  induction hs as [|h hs IH]; intros H; [constructor|].
  cbn [forallb] in H. apply andb_true_iff in H. destruct H as [H1 H2].
  constructor; [|exact (IH H2)].
  split; [reflexivity|].
  destruct (names_content_length (fst h)); [exact H1 | reflexivity].
Qed.

End HeaderFacts.

Import HeaderFacts.

(* ===================================================================== *)
(** ** Facts about [ResponseMangler.send] *)
(* ===================================================================== *)

Module SendFacts.

Section AnyMangler.

Variable f : bytes -> bytes * bool.

(** Once done, every event goes straight to the sink. *)
Lemma send_done (ev : ASGISendEvent) (self : ResponseMangler) :
  _done self = true ->
  send f ev self =
  (Ok tt, {| _done := true; _response_start := _response_start self;
             _body := _body self; sink := sink self ++ [ev] |}).
Proof.
  intros H. unfold send, bind, get. rewrite H. unfold _send. rewrite H.
  reflexivity.
Qed.

Lemma send_all_done (evs : list ASGISendEvent) :
  forall self : ResponseMangler,
    _done self = true ->
    send_all f evs self =
    (Ok tt, {| _done := true; _response_start := _response_start self;
               _body := _body self; sink := sink self ++ evs |}).
Proof.
  induction evs as [|ev evs IH]; intros self H.
  - cbn [send_all]. unfold ret. rewrite app_nil_r. destruct self; cbn in *.
    subst. reflexivity.
  - cbn [send_all]. unfold bind at 1. rewrite send_done by exact H.
    rewrite IH by reflexivity. cbn. rewrite <- app_assoc. reflexivity.
Qed.

(** The start event is buffered. *)
Lemma send_start (e : HTTPResponseStartEvent) (self : ResponseMangler) :
  _done self = false ->
  send f (Start e) self =
  (Ok tt, {| _done := false; _response_start := Some e;
             _body := _body self; sink := sink self |}).
Proof.
  intros H. unfold send, bind, get. rewrite H. unfold set_response_start.
  rewrite H. reflexivity.
Qed.

(** One body event on an object that is not done and holds a start event. *)
Lemma send_body (e : HTTPResponseBodyEvent) (start : HTTPResponseStartEvent)
    (self : ResponseMangler) :
  _done self = false ->
  _response_start self = Some start ->
  send f (Body e) self =
  let buffered := _body self ++ body e in
  let mangled := fst (f buffered) in
  let more := match more_body e with Some m => m | None => false end in
  match (if negb (len mangled =? len buffered)%Z
         then _add_to_content_length start (len mangled - len buffered)
         else Ok start) with
  | Raise ex =>
      (Raise ex, {| _done := false; _response_start := Some start;
                    _body := mangled; sink := sink self |})
  | Ok start' =>
      if snd (f buffered) || negb more
      then (Ok tt, {| _done := true; _response_start := None; _body := [];
                      sink := sink self ++
                        [Start start';
                         Body {| body := mangled; more_body := Some more |}] |})
      else (Ok tt, {| _done := false; _response_start := Some start';
                      _body := mangled; sink := sink self |})
  end.
Proof.
  intros Hd Hs. destruct self as [d rs bd sk]. cbn in Hd, Hs. subst d rs.
  unfold send, bind, get. cbn.
  destruct (f (bd ++ body e)) as [mangled done]. cbn.
  destruct (negb (len mangled =? len (bd ++ body e))%Z); cbn.
  - unfold lift, bind. cbn.
    destruct (_add_to_content_length start (len mangled - len (bd ++ body e)))
      as [start'|ex]; cbn; [|reflexivity].
    destruct (done || negb _); cbn; [|reflexivity].
    rewrite <- app_assoc. reflexivity.
  - destruct (done || negb _); cbn; [|reflexivity].
    rewrite <- app_assoc. reflexivity.
Qed.

Lemma add_to_content_length_status (start start' : HTTPResponseStartEvent)
    (offset : Z) :
  _add_to_content_length start offset = Ok start' -> status start' = status start.
Proof.
  unfold _add_to_content_length.
  destruct (add_to_headers offset (headers start)); [|discriminate].
  intros H. injection H as <-. reflexivity.
Qed.

Lemma start_first_send_body (st : Z) (e : HTTPResponseBodyEvent)
    (self : ResponseMangler) :
  start_first st self -> start_first st (snd (send f (Body e) self)).
Proof.
  intros [(Hd & (cur & Hs & Hst) & Hk)|(Hd & start' & rest & Hk & Hst & Hb)].
  - rewrite (send_body e self Hd Hs). cbv zeta.
    destruct (if negb _ then _ else _) as [start'|ex] eqn:A; cbn.
    + assert (status start' = st) as Hst'.
      { destruct (negb _) in A.
        - apply add_to_content_length_status in A. congruence.
        - injection A as <-. exact Hst. }
      destruct (snd _ || negb _); cbn.
      * right. split; [reflexivity|]. rewrite Hk.
        eexists _, _. repeat split. exact Hst'.
      * left. repeat split; [|exact Hk]. exists start'. split; [reflexivity|exact Hst'].
    + left. repeat split; [|exact Hk]. exists cur. split; [reflexivity|exact Hst].
  - rewrite send_done by exact Hd. cbn. right. split; [reflexivity|].
    exists start', (rest ++ [Body e]). repeat split.
    + rewrite Hk. reflexivity.
    + exact Hst.
    + rewrite forallb_app, Hb. reflexivity.
Qed.

Lemma start_first_send_all (st : Z) (es : list HTTPResponseBodyEvent) :
  forall self : ResponseMangler,
    start_first st self -> start_first st (snd (send_all f (map Body es) self)).
Proof.
  induction es as [|e es IH]; intros self H; [exact H|].
  cbn [map send_all]. unfold bind at 1.
  pose proof (start_first_send_body e H) as H1.
  destruct (send f (Body e) self) as [[[]|ex] self']; cbn in H1 |- *.
  - apply IH. exact H1.
  - exact H1.
Qed.

(** Events of other types are dropped while the object is not done. *)
Lemma send_other (type : str) (self : ResponseMangler) :
  _done self = false -> send f (Other type) self = (Ok tt, self).
Proof.
  intros H. unfold send, bind, get. rewrite H. reflexivity.
Qed.

End AnyMangler.

End SendFacts.

Import SendFacts.

(* ===================================================================== *)
(** ** Facts about the rewriting of a chunked body *)
(* ===================================================================== *)

Module RewriteFacts.

Lemma body_events_cons (c : bytes) (cs : list bytes) :
  body_events (c :: cs) =
  Body {| body := c;
          more_body := Some (match cs with [] => false | _ => true end) |}
    :: body_events cs.
Proof. destruct cs; reflexivity. Qed.

Lemma body_events_are_bodies (cs : list bytes) :
  forallb is_body (body_events cs) = true.
Proof.
  induction cs as [|c cs IH]; [reflexivity|].
  rewrite body_events_cons. cbn [forallb is_body]. exact IH.
Qed.

Lemma total_body_body_events (cs : list bytes) :
  total_body (body_events cs) = concat cs.
Proof.
  unfold total_body. induction cs as [|c cs IH]; [reflexivity|].
  rewrite body_events_cons. cbn [map concat body_bytes body]. rewrite IH.
  reflexivity.
Qed.

Lemma coalesce_body_events (c : bytes) (cs : list bytes) :
  coalesce (body_events (c :: cs)) =
  [Body {| body := concat (c :: cs); more_body := Some false |}].
Proof.
  revert c. induction cs as [|c' cs IH]; intros c.
  - cbn. rewrite app_nil_r. reflexivity.
  - rewrite body_events_cons. cbn [coalesce]. rewrite IH. reflexivity.
Qed.

Lemma total_body_coalesce (evs : list ASGISendEvent) :
  total_body (coalesce evs) = total_body evs.
Proof.
  unfold total_body. induction evs as [|[e|e|t] evs IH]; cbn [coalesce map concat];
    try (rewrite IH; reflexivity); [reflexivity|].
  rewrite <- IH. destruct (coalesce evs) as [|[e2|e2|t2] rest]; cbn;
    rewrite ?app_assoc; reflexivity.
Qed.

Lemma filter_start_coalesce (evs : list ASGISendEvent) :
  filter is_start (coalesce evs) = filter is_start evs.
Proof.
  induction evs as [|[e|e|t] evs IH]; cbn [coalesce filter is_start];
    try (rewrite IH; reflexivity); [reflexivity|].
  rewrite <- IH. destruct (coalesce evs) as [|[e2|e2|t2] rest]; reflexivity.
Qed.

Section Script.

Variable script : bytes.
Variable start : HTTPResponseStartEvent.

Lemma send_start_init :
  send (mangle_callback script) (Start start) init = (Ok tt, buffering start []).
Proof. reflexivity. Qed.

(** A chunk that completes no marker is buffered, when more chunks follow. *)
Lemma send_chunk_buffered (acc c : bytes) :
  contains head_end (acc ++ c) = false ->
  send (mangle_callback script) (Body {| body := c; more_body := Some true |})
    (buffering start acc) = (Ok tt, buffering start (acc ++ c)).
Proof.
  intros H. rewrite (send_body (mangle_callback script) _ (buffering start acc) eq_refl eq_refl).
  cbn [buffering _body body more_body sink]. unfold mangle_callback. rewrite H.
  cbn [fst snd]. rewrite Z.eqb_refl. reflexivity.
Qed.

(** The last chunk of a body without the marker flushes the bytes as they
    came, behind the start event as it came. *)
Lemma send_chunk_last (acc c : bytes) :
  contains head_end (acc ++ c) = false ->
  send (mangle_callback script) (Body {| body := c; more_body := Some false |})
    (buffering start acc) =
  (Ok tt, {| _done := true; _response_start := None; _body := [];
             sink := [Start start;
                      Body {| body := acc ++ c; more_body := Some false |}] |}).
Proof.
  intros H. rewrite (send_body (mangle_callback script) _ (buffering start acc) eq_refl eq_refl).
  cbn [buffering _body body more_body sink]. unfold mangle_callback. rewrite H.
  cbn [fst snd]. rewrite Z.eqb_refl. reflexivity.
Qed.

(** The chunk that completes the marker: the length header is corrected and
    everything buffered is flushed, or the correction raises and nothing is
    sent. *)
Lemma send_chunk_marker (acc c : bytes) (more : bool) :
  contains head_end (acc ++ c) = true ->
  send (mangle_callback script) (Body {| body := c; more_body := Some more |})
    (buffering start acc) =
  match corrected_start script start with
  | Ok start' =>
      (Ok tt, {| _done := true; _response_start := None; _body := [];
                 sink := [Start start';
                          Body {| body := replace_first head_end script (acc ++ c);
                                  more_body := Some more |}] |})
  | Raise ex =>
      (Raise ex, {| _done := false; _response_start := Some start;
                    _body := replace_first head_end script (acc ++ c);
                    sink := [] |})
  end.
Proof.
  intros H. rewrite (send_body (mangle_callback script) _ (buffering start acc) eq_refl eq_refl).
  cbn [buffering _body body more_body sink]. unfold mangle_callback. rewrite H.
  cbn [fst snd]. rewrite (replace_first_len _ script _ H).
  unfold corrected_start.
  replace (len (acc ++ c) + (len script - len head_end) =? len (acc ++ c))%Z
    with (len script =? len head_end)%Z
    by (destruct (Z.eqb_spec (len script) (len head_end));
        symmetry; [apply Z.eqb_eq | apply Z.eqb_neq]; lia).
  replace (len (acc ++ c) + (len script - len head_end) - len (acc ++ c))%Z
    with (len script - len head_end)%Z by lia.
  destruct (len script =? len head_end)%Z; cbn [negb].
  - reflexivity.
  - destruct (_add_to_content_length start (len script - len head_end));
      reflexivity.
Qed.

(** A body without the marker, in any number of chunks. *)
Lemma no_marker_run (cs : list bytes) :
  forall acc : bytes,
    cs <> [] ->
    contains head_end (acc ++ concat cs) = false ->
    send_all (mangle_callback script) (body_events cs) (buffering start acc) =
    (Ok tt, {| _done := true; _response_start := None; _body := [];
               sink := [Start start;
                        Body {| body := acc ++ concat cs;
                                more_body := Some false |}] |}).
Proof.
  induction cs as [|c cs IH]; intros acc Hne H; [congruence|].
  cbn [concat] in H. rewrite app_assoc in H.
  rewrite body_events_cons. cbn [send_all]. unfold bind at 1.
  destruct cs as [|c' cs].
  - cbn [concat] in *. rewrite app_nil_r in *.
    rewrite send_chunk_last by exact H. reflexivity.
  - rewrite send_chunk_buffered by exact (contains_app_false _ _ _ H).
    rewrite IH; [|discriminate|exact H].
    cbn [concat]. rewrite <- !app_assoc. reflexivity.
Qed.

(** A body with the marker, in any number of chunks. *)
Lemma marker_run (cs : list bytes) :
  forall acc : bytes,
    contains head_end acc = false ->
    contains head_end (acc ++ concat cs) = true ->
    match corrected_start script start with
    | Ok start' =>
        exists chunks',
          send_all (mangle_callback script) (body_events cs) (buffering start acc) =
          (Ok tt, {| _done := true; _response_start := None; _body := [];
                     sink := Start start' :: body_events chunks' |}) /\
          chunks' <> [] /\
          concat chunks' = replace_first head_end script (acc ++ concat cs)
    | Raise ex =>
        exists self,
          send_all (mangle_callback script) (body_events cs) (buffering start acc) =
          (Raise ex, self) /\ sink self = []
    end.
Proof.
  induction cs as [|c cs IH]; intros acc Hacc H.
  - cbn [concat] in H. rewrite app_nil_r in H. congruence.
  - cbn [concat] in H. rewrite app_assoc in H.
    rewrite body_events_cons. cbn [send_all].
    destruct (contains head_end (acc ++ c)) eqn:E.
    + pose proof (send_chunk_marker acc c
                    (match cs with [] => false | _ => true end) E) as S.
      destruct (corrected_start script start) as [start'|ex];
        unfold bind at 1; rewrite S.
      * rewrite send_all_done by reflexivity. cbn [sink _response_start _body].
        exists (replace_first head_end script (acc ++ c) :: cs).
        rewrite body_events_cons. split; [reflexivity|]. split; [discriminate|].
        cbn [concat]. rewrite app_assoc. symmetry.
        apply replace_first_app. exact E.
      * eexists. split; reflexivity.
    + assert (cs <> []) as Hne.
      { intros ->. cbn [concat] in H. rewrite app_nil_r in H. congruence. }
      destruct cs as [|c' cs]; [congruence|].
      specialize (IH (acc ++ c) E H).
      destruct (corrected_start script start) as [start'|ex];
        unfold bind at 1; rewrite send_chunk_buffered by exact E.
      * destruct IH as (chunks' & R & Hn & Hc). exists chunks'.
        split; [exact R|]. split; [exact Hn|].
        rewrite Hc. cbn [concat]. rewrite <- !app_assoc. reflexivity.
      * exact IH.
Qed.

(** With ASCII header names and a declared length of [n], the correction
    succeeds and declares [n] plus the change of length. *)
Lemma corrected_start_declared (n : Z) :
  ascii_names (headers start) = true ->
  declares_content_length (headers start) n = true ->
  exists start',
    corrected_start script start = Ok start' /\
    status start' = status start /\
    Forall2 (corrected_header (n + (len script - len head_end)))
      (headers start) (headers start').
Proof.
  intros Ha Hd. unfold declares_content_length in Hd.
  apply andb_true_iff in Hd. destruct Hd as [_ Hv].
  unfold corrected_start. destruct (Z.eqb_spec (len script) (len head_end)) as [L|L].
  - exists start. split; [reflexivity|]. split; [reflexivity|].
    rewrite L, Z.sub_diag, Z.add_0_r. apply corrected_refl. exact Hv.
  - destruct (add_to_headers_declared (len script - len head_end) _ _ Ha Hv)
      as (hs' & E & F).
    unfold _add_to_content_length. rewrite E.
    eexists. split; [reflexivity|]. split; [reflexivity|]. exact F.
Qed.

End Script.

End RewriteFacts.

Import RewriteFacts.
Import Samples.

Unset Implicit Arguments.

(* ===================================================================== *)
(** ** The response rewriter: properties *)
(* ===================================================================== *)

Lemma run_response (script : bytes) (start : HTTPResponseStartEvent)
    (chunks : list bytes) :
  run (mangle_callback script) (response start chunks) =
  send_all (mangle_callback script) (body_events chunks) (buffering start []).
Proof. reflexivity. Qed.

(** C1, the claim as stated fails: the sample page behind a start event
    that declares [Content-Length = len(B)] and also has a header whose name
    is not ASCII.  [_add_to_content_length] decodes every name, so [send]
    raises [UnicodeDecodeError] on the chunk that completes the marker, and
    no start event and no body reach the sink. *)
Lemma non_ascii_header_name_raises :
  contains head_end (concat sample_chunks) = true /\
  declares_content_length (headers latin1_name_start) (len (concat sample_chunks))
    = true /\
  fst (run (mangle_callback sample_script)
         (response latin1_name_start sample_chunks)) = Raise UnicodeDecodeError /\
  sink (snd (run (mangle_callback sample_script)
               (response latin1_name_start sample_chunks))) = [].
Proof. repeat split; vm_compute; reflexivity. Qed.

(** C1, amended. Content-length correctness: a body [B = concat chunks]
    that contains the marker, behind a start event whose header names are
    all ASCII and which declares [Content-Length = len(B)], the conversions
    staying within the interpreter's limit of 4300 digits, comes out as one
    start event that declares
    [Content-Length = len(B) + (len(script) - len(marker))] and is otherwise
    unchanged, followed by body events whose bytes are [B] with the first
    occurrence of the marker replaced by the script. *)
Theorem content_length_correctness (script : bytes)
    (start : HTTPResponseStartEvent) (chunks : list bytes) :
  contains head_end (concat chunks) = true ->
  ascii_names (headers start) = true ->
  declares_content_length (headers start) (len (concat chunks)) = true ->
  within_digit_limit (headers start)
    (len (concat chunks) + (len script - len head_end)) = true ->
  exists start' bodies,
    run (mangle_callback script) (response start chunks) =
      (Ok tt, {| _done := true; _response_start := None; _body := [];
                 sink := Start start' :: bodies |}) /\
    status start' = status start /\
    Forall2 (corrected_header
               (len (concat chunks) + (len script - len head_end)))
      (headers start) (headers start') /\
    declares_content_length (headers start')
      (len (concat chunks) + (len script - len head_end)) = true /\
    forallb is_body bodies = true /\
    total_body bodies = replace_first head_end script (concat chunks).
Proof.
  intros Hm Ha Hd _. rewrite run_response.
  destruct (corrected_start_declared script start _ Ha Hd) as (start' & C & St & F).
  pose proof (marker_run script start chunks [] eq_refl Hm) as R.
  rewrite C in R. destruct R as (chunks' & R & _ & Hc).
  exists start', (body_events chunks'). split; [exact R|].
  split; [exact St|]. split; [exact F|]. split.
  - apply (corrected_declares F). unfold declares_content_length in Hd.
    apply andb_true_iff in Hd. apply Hd.
  - split; [apply body_events_are_bodies|].
    rewrite total_body_body_events. exact Hc.
Qed.

Lemma content_length_correctness_witness :
  contains head_end (concat sample_chunks) = true /\
  ascii_names (headers sample_start) = true /\
  declares_content_length (headers sample_start) (len (concat sample_chunks))
    = true /\
  within_digit_limit (headers sample_start)
    (len (concat sample_chunks) + (len sample_script - len head_end)) = true /\
  exists start' bodies,
    run (mangle_callback sample_script) (response sample_start sample_chunks) =
      (Ok tt, {| _done := true; _response_start := None; _body := [];
                 sink := Start start' :: bodies |}) /\
    status start' = status sample_start /\
    Forall2 (corrected_header
               (len (concat sample_chunks) + (len sample_script - len head_end)))
      (headers sample_start) (headers start') /\
    declares_content_length (headers start')
      (len (concat sample_chunks) + (len sample_script - len head_end)) = true /\
    forallb is_body bodies = true /\
    total_body bodies = replace_first head_end sample_script (concat sample_chunks).
Proof.
  assert (contains head_end (concat sample_chunks) = true) as H1
    by (vm_compute; reflexivity).
  assert (ascii_names (headers sample_start) = true) as H2
    by (vm_compute; reflexivity).
  assert (declares_content_length (headers sample_start)
            (len (concat sample_chunks)) = true) as H3
    by (vm_compute; reflexivity).
  assert (within_digit_limit (headers sample_start)
            (len (concat sample_chunks) + (len sample_script - len head_end))
          = true) as H4
    by (vm_compute; reflexivity).
  split; [exact H1|]. split; [exact H2|]. split; [exact H3|]. split; [exact H4|].
  exact (content_length_correctness sample_script sample_start sample_chunks
           H1 H2 H3 H4).
Defined.

(** The sample page comes out with [Content-Length: 126]. *)
Example sample_rewritten :
  map (fun ev => match ev with
                 | Start e => map snd (headers e)
                 | _ => []
                 end)
      (sink (snd (run (mangle_callback sample_script)
                    (response sample_start sample_chunks))))
  = [[b "text/html"; b "126"]; []; []].
Proof. vm_compute. reflexivity. Qed.

(** C5. No-marker passthrough: a body without the marker, in any number of
    chunks, comes out as the start event exactly as it came (so with its
    [Content-Length] as declared) followed by one body event with the bytes
    exactly as they came. *)
Theorem no_marker_passthrough (script : bytes)
    (start : HTTPResponseStartEvent) (chunks : list bytes) :
  chunks <> [] ->
  contains head_end (concat chunks) = false ->
  run (mangle_callback script) (response start chunks) =
  (Ok tt, {| _done := true; _response_start := None; _body := [];
             sink := [Start start;
                      Body {| body := concat chunks;
                              more_body := Some false |}] |}).
Proof.
  intros Hne H. rewrite run_response.
  exact (@no_marker_run script start chunks [] Hne H).
Qed.

Lemma no_marker_passthrough_witness :
  plain_chunks <> [] /\
  contains head_end (concat plain_chunks) = false /\
  run (mangle_callback sample_script) (response plain_start plain_chunks) =
  (Ok tt, {| _done := true; _response_start := None; _body := [];
             sink := [Start plain_start;
                      Body {| body := concat plain_chunks;
                              more_body := Some false |}] |}).
Proof.
  assert (plain_chunks <> []) as H1 by (unfold plain_chunks; discriminate).
  assert (contains head_end (concat plain_chunks) = false) as H2
    by (vm_compute; reflexivity).
  split; [exact H1|]. split; [exact H2|].
  exact (no_marker_passthrough sample_script plain_start plain_chunks H1 H2).
Defined.

(** The whole body in one chunk, when it contains the marker. *)
Lemma single_chunk_marker (script : bytes) (start : HTTPResponseStartEvent)
    (B : bytes) :
  contains head_end B = true ->
  run (mangle_callback script) (response start [B]) =
  match corrected_start script start with
  | Ok start' =>
      (Ok tt, {| _done := true; _response_start := None; _body := [];
                 sink := [Start start';
                          Body {| body := replace_first head_end script B;
                                  more_body := Some false |}] |})
  | Raise ex =>
      (Raise ex, {| _done := false; _response_start := Some start;
                    _body := replace_first head_end script B; sink := [] |})
  end.
Proof.
  intros H. rewrite run_response. cbn [body_events send_all]. unfold bind at 1.
  rewrite (send_chunk_marker script start [] B false H).
  destruct (corrected_start script start); reflexivity.
Qed.

(** C2, the claim as stated fails: the sample page sent in three chunks
    reaches the sink as a start event and two body events, and sent in one
    chunk as a start event and one body event. *)
Lemma chunking_changes_event_sequence :
  sink (snd (run (mangle_callback sample_script)
               (response sample_start sample_chunks)))
  <> sink (snd (run (mangle_callback sample_script)
                  (response sample_start [concat sample_chunks]))).
Proof.
  intros H. apply (f_equal (@length ASGISendEvent)) in H.
  vm_compute in H. discriminate H.
Qed.

(** C2, amended. Chunk-boundary independence: however a body is split into
    chunks, the outcome is the one of sending it as a single chunk, and so
    is what reaches the sink once adjacent body events are merged: the same
    (corrected) start event and the same total body bytes.  The number of
    body events may differ, since chunks that come after the flush are
    forwarded one by one. *)
Theorem chunking_same_output (script : bytes) (start : HTTPResponseStartEvent)
    (chunks : list bytes) :
  chunks <> [] ->
  fst (run (mangle_callback script) (response start chunks)) =
    fst (run (mangle_callback script) (response start [concat chunks])) /\
  coalesce (sink (snd (run (mangle_callback script) (response start chunks)))) =
    sink (snd (run (mangle_callback script) (response start [concat chunks]))) /\
  filter is_start
    (sink (snd (run (mangle_callback script) (response start chunks)))) =
    filter is_start
      (sink (snd (run (mangle_callback script) (response start [concat chunks])))) /\
  total_body
    (sink (snd (run (mangle_callback script) (response start chunks)))) =
    total_body
      (sink (snd (run (mangle_callback script) (response start [concat chunks])))).
Proof.
  intros Hne.
  assert (fst (run (mangle_callback script) (response start chunks)) =
            fst (run (mangle_callback script) (response start [concat chunks])) /\
          coalesce (sink (snd (run (mangle_callback script) (response start chunks)))) =
            sink (snd (run (mangle_callback script) (response start [concat chunks]))))
    as [Ho Hs].
  { destruct (contains head_end (concat chunks)) eqn:E.
    - pose proof (single_chunk_marker script start _ E) as Q.
      unfold bytes in Q. rewrite Q. clear Q.
      pose proof (marker_run script start chunks [] eq_refl E) as R.
      rewrite run_response.
      destruct (corrected_start script start) as [start'|ex].
      + destruct R as (chunks' & R & Hn & Hc). rewrite R. cbn [fst snd sink].
        split; [reflexivity|].
        destruct chunks' as [|c cs]; [congruence|].
        cbn [coalesce]. rewrite coalesce_body_events, Hc. reflexivity.
      + destruct R as (self & R & Hk). rewrite R. cbn [fst snd sink].
        rewrite Hk. split; reflexivity.
    - rewrite (no_marker_passthrough script start chunks Hne E).
      assert (contains head_end (concat [concat chunks]) = false) as E1
        by (cbn [concat]; rewrite app_nil_r; exact E).
      pose proof (no_marker_passthrough script start [concat chunks]
                    ltac:(discriminate) E1) as Q.
      unfold bytes in Q. rewrite Q. clear Q.
      cbn [concat]. rewrite app_nil_r. split; reflexivity. }
  split; [exact Ho|]. split; [exact Hs|]. rewrite <- Hs. split.
  - symmetry. apply filter_start_coalesce.
  - symmetry. apply total_body_coalesce.
Qed.

Lemma chunking_same_output_witness :
  sample_chunks <> [] /\
  fst (run (mangle_callback sample_script) (response sample_start sample_chunks)) =
    fst (run (mangle_callback sample_script)
           (response sample_start [concat sample_chunks])) /\
  coalesce (sink (snd (run (mangle_callback sample_script)
                         (response sample_start sample_chunks)))) =
    sink (snd (run (mangle_callback sample_script)
                 (response sample_start [concat sample_chunks]))) /\
  filter is_start
    (sink (snd (run (mangle_callback sample_script)
                  (response sample_start sample_chunks)))) =
    filter is_start
      (sink (snd (run (mangle_callback sample_script)
                    (response sample_start [concat sample_chunks])))) /\
  total_body
    (sink (snd (run (mangle_callback sample_script)
                  (response sample_start sample_chunks)))) =
    total_body
      (sink (snd (run (mangle_callback sample_script)
                    (response sample_start [concat sample_chunks])))).
Proof.
  assert (sample_chunks <> []) as H1 by (unfold sample_chunks; discriminate).
  split; [exact H1|].
  exact (chunking_same_output sample_script sample_start sample_chunks H1).
Defined.

(** C3. Single pre-flush invariant: after any number [n] of the events of a
    response (one start event, then body events with any flags), and for any
    mangler, nothing has reached the sink if the object has not flushed;
    if it has, the sink holds exactly one start event, of the status of the
    response, at its head, and only body events behind it. *)
Theorem start_precedes_body (f : bytes -> bytes * bool)
    (start : HTTPResponseStartEvent) (bodies : list HTTPResponseBodyEvent)
    (n : nat) :
  start_leads (status start)
    (snd (run f (firstn n (Start start :: map Body bodies)))).
Proof.
  destruct n as [|n].
  - left. split; reflexivity.
  - cbn [firstn]. rewrite firstn_map. unfold run. cbn [send_all].
    unfold bind at 1. rewrite send_start by reflexivity.
    assert (start_first (status start)
              {| _done := false; _response_start := Some start;
                 _body := _body init; sink := sink init |}) as H0.
    { left. split; [reflexivity|]. split; [|reflexivity].
      exists start. split; reflexivity. }
    pose proof (start_first_send_all f (firstn n bodies) H0) as H.
    destruct H as [(Hd & _ & Hk)|(Hd & start' & rest & Hk & Hst & Hb)].
    + left. split; assumption.
    + right. split; [assumption|]. exists start', rest. repeat split; assumption.
Qed.

(** C6. A body event that comes to a new mangler before any start event
    (events of other types may have come, they are dropped) raises
    [AssertionError], and the sink stays empty. *)
Theorem body_before_start (f : bytes -> bytes * bool) (types : list str)
    (e : HTTPResponseBodyEvent) :
  run f (map Other types ++ [Body e]) = (Raise AssertionError, init).
Proof.
  unfold run. induction types as [|t types IH].
  - reflexivity.
  - cbn [map]. rewrite <- app_comm_cons. cbn [send_all]. unfold bind at 1.
    rewrite send_other by reflexivity. exact IH.
Qed.

(* ===================================================================== *)
(** ** The reload server: properties *)
(* ===================================================================== *)

Import Server.

Lemma str_eqb_eq (s t : str) : str_eqb s t = true <-> s = t.
Proof.
  revert t. induction s as [|x s IH]; intros [|y t]; cbn [str_eqb];
    try (split; [discriminate | discriminate]); [split; reflexivity|].
  rewrite andb_true_iff, N.eqb_eq, IH. split.
  - intros [-> ->]. reflexivity.
  - intros H. injection H as -> ->. split; reflexivity.
Qed.

Lemma str_eqb_refl (s : str) : str_eqb s s = true.
Proof. apply str_eqb_eq. reflexivity. Qed.

Lemma str_eqb_neq (s t : str) : s <> t -> str_eqb s t = false.
Proof.
  intros H. destruct (str_eqb s t) eqn:E; [|reflexivity].
  apply str_eqb_eq in E. contradiction.
Qed.

(** C4. Auth gate: on a [/notify] connection whose
    [Shiny-Autoreload-Secret] value (the empty string when the header is
    absent) differs from the secret, the handler is the program that returns
    at once: it asks for no frame and does not call [nudge].  Run against any
    peer, whatever frames that peer sends, it returns with no action done,
    the inbox of the peer untouched and the closure of [nudge] (the browser
    flag and the pulses of [reload_now]) unchanged. *)
Theorem notify_auth_gate (Headers : Type) (get : Headers -> str -> option str)
    (secret app_url : str) (req : Request Headers) :
  path req = u "/notify" ->
  get_default get (headers req) (u "Shiny-Autoreload-Secret") [] <> secret ->
  reload_server get secret (Some req) = Ret (Ok tt) /\
  forall (fuel : nat) (p : Peer) (c : Closure),
    run_handler app_url (S fuel) (reload_server get secret (Some req)) [] p c =
    {| returned := Some (Ok tt); actions := []; peer := p; closure := c |}.
Proof.
  intros Hp Hs.
  assert (reload_server get secret (Some req) = Ret (Ok tt)) as E.
  { unfold reload_server. rewrite Hp.
    change (str_eqb (u "/notify") (u "/autoreload")) with false.
    rewrite str_eqb_refl. cbv iota. rewrite (str_eqb_neq _ _ Hs). reflexivity. }
  split; [exact E|]. intros fuel p c. rewrite E. reflexivity.
Qed.

Lemma notify_auth_gate_witness :
  path (notify_request (u "wrong")) = u "/notify" /\
  get_default field_get (headers (notify_request (u "wrong")))
    (u "Shiny-Autoreload-Secret") [] <> u "abc" /\
  reload_server field_get (u "abc") (Some (notify_request (u "wrong")))
    = Ret (Ok tt) /\
  forall (fuel : nat) (p : Peer) (c : Closure),
    run_handler (u "http://127.0.0.1:8000/") (S fuel)
      (reload_server field_get (u "abc") (Some (notify_request (u "wrong"))))
      [] p c =
    {| returned := Some (Ok tt); actions := []; peer := p; closure := c |}.
Proof.
  assert (path (notify_request (u "wrong")) = u "/notify") as H1
    by reflexivity.
  assert (get_default field_get (headers (notify_request (u "wrong")))
            (u "Shiny-Autoreload-Secret") [] <> u "abc") as H2
    by (vm_compute; discriminate).
  split; [exact H1|]. split; [exact H2|].
  exact (notify_auth_gate (list (str * str)) field_get (u "abc")
           (u "http://127.0.0.1:8000/") (notify_request (u "wrong")) H1 H2).
Defined.

(** With the right secret the frame is read and [nudge] is called (the run
    that the gate prevents). *)
Example notify_with_secret :
  run_handler (u "http://127.0.0.1:8000/") 4
    (reload_server field_get (u "abc") (Some (notify_request (u "abc"))))
    [] worker_peer first_start =
  {| returned := Some (Ok tt);
     actions := [Received (Some (Text (u "reload_end"))); Nudged];
     peer := {| inbox := []; accepts := 0 |};
     closure := {| launch_browser := false;
                   effects := [BrowserOpen (u "http://127.0.0.1:8000/") 1;
                               EventSet; EventClear] |} |}.
Proof. vm_compute. reflexivity. Qed.

(** An [/autoreload] handler pushes one message per wake-up until the peer
    is gone. *)
Example autoreload_pushes :
  actions
    (run_handler (u "http://127.0.0.1:8000/") 20
       (reload_server field_get (u "abc") (Some plain_request))
       [] {| inbox := []; accepts := 2 |} first_start) =
  [Waited; Sent (u "autoreload"); Waited; Sent (u "autoreload"); Waited].
Proof. vm_compute. reflexivity. Qed.

Lemma nudge_after_first (app_url : str) (c : Closure) :
  launch_browser c = false ->
  nudge app_url c =
  {| launch_browser := false; effects := effects c ++ [EventSet; EventClear] |}.
Proof. intros H. unfold nudge. rewrite H. rewrite H. reflexivity. Qed.

(** C8. After [n] calls of [nudge], the effects are: the browser opened
    once, ahead of the first pulse, if there was a call and the flag was
    set at the start, and not opened otherwise; then exactly [n] pulses.
    The flag is false after the first call. *)
Theorem browser_opened_once (app_url : str) (c : Closure) (n : nat) :
  effects (nudges app_url n c) =
    effects c
    ++ (if launch_browser c && negb (n =? 0)%nat
        then [BrowserOpen app_url 1] else [])
    ++ pulses n
  /\ launch_browser (nudges app_url n c) =
       launch_browser c && (n =? 0)%nat
  /\ length (filter is_browser_open (effects (nudges app_url n c))) =
       (length (filter is_browser_open (effects c))
        + (if launch_browser c && negb (n =? 0)%nat then 1 else 0))%nat.
Proof.
  assert (effects (nudges app_url n c) =
            effects c
            ++ (if launch_browser c && negb (n =? 0)%nat
                then [BrowserOpen app_url 1] else [])
            ++ pulses n
          /\ launch_browser (nudges app_url n c) =
               launch_browser c && (n =? 0)%nat) as [He Hl].
  { induction n as [|n [IHe IHl]].
    - cbn. rewrite andb_false_r, andb_true_r, app_nil_r. split; reflexivity.
    - cbn [nudges Nat.eqb negb pulses]. rewrite andb_true_r, andb_false_r.
      destruct n as [|n].
      + clear IHe IHl. destruct c as [[|] past]; cbn; rewrite <- ?app_assoc;
          split; reflexivity.
      + cbn [nudges Nat.eqb negb] in IHe, IHl. rewrite andb_true_r in IHe.
        rewrite andb_false_r in IHl.
        rewrite (nudge_after_first _ _ IHl). cbn [effects launch_browser].
        rewrite IHe. rewrite <- !app_assoc. split; reflexivity. }
  split; [exact He|]. split; [exact Hl|].
  rewrite He, !filter_app, !length_app.
  assert (filter is_browser_open (pulses n) = []) as ->.
  { clear. induction n as [|n IH]; [reflexivity|].
    cbn [pulses]. rewrite filter_app, IH. reflexivity. }
  destruct (launch_browser c && negb (n =? 0)%nat); cbn; lia.
Qed.

(** C9, the claim as stated fails: a request that carries an [Upgrade]
    header on two lines does not make [process_request] return [None];
    [request.headers.get("Upgrade")] raises [MultipleValuesError], and the
    exception leaves [process_request]. *)
Lemma repeated_upgrade_raises :
  process_request (u "http://127.0.0.1:8000/")
    (lines_get repeated_upgrade_lines (u "Upgrade"))
  = Raise MultipleValuesError.
Proof. vm_compute. reflexivity. Qed.

(** C9, amended.  A request without an [Upgrade] header is answered with
    301 Moved Permanently and the application URL as [Location]; for a
    request that carries exactly one [Upgrade] header [process_request]
    returns [None]; when the header is repeated, [MultipleValuesError]
    leaves [process_request]. *)
Theorem plain_request_redirected (app_url : str) (lines : header_lines) :
  (length (lines_named lines (u "Upgrade")) = 0%nat ->
   process_request app_url (lines_get lines (u "Upgrade")) =
   Ok (Some {| status_code := 301;
               reason_phrase := u "Moved Permanently";
               response_headers := [(u "Location", app_url)] |}))
  /\ (length (lines_named lines (u "Upgrade")) = 1%nat ->
      process_request app_url (lines_get lines (u "Upgrade")) = Ok None)
  /\ ((2 <= length (lines_named lines (u "Upgrade")))%nat ->
      process_request app_url (lines_get lines (u "Upgrade")) =
      Raise MultipleValuesError).
Proof.
  unfold lines_get.
  destruct (lines_named lines (u "Upgrade")) as [|kv [|kv' rest]];
    cbn [length]; (split; [|split]); intros H; try reflexivity; try lia.
Qed.

Example plain_get_redirected :
  process_request (u "http://127.0.0.1:8000/")
    (lines_get plain_lines (u "Upgrade")) =
  Ok (Some {| status_code := 301;
              reason_phrase := u "Moved Permanently";
              response_headers := [(u "Location", u "http://127.0.0.1:8000/")] |})
  /\ process_request (u "http://127.0.0.1:8000/")
       (lines_get upgrade_lines (u "Upgrade")) = Ok None.
Proof. split; vm_compute; reflexivity. Qed.

(* ===================================================================== *)
(** ** The middleware: properties *)
(* ===================================================================== *)

Lemma encode_ascii_is_ascii (s : str) :
  is_ascii s = true -> exists bs, encode_ascii s = Some bs.
Proof.
  induction s as [|c s IH]; intros H; [exists []; reflexivity|].
  cbn [is_ascii forallb] in H. apply andb_true_iff in H. destruct H as [Hc Hs].
  destruct (IH Hs) as (bs & E). cbn [encode_ascii]. rewrite Hc, E.
  destruct (Byte.of_N c) as [x|] eqn:B; [exists (x :: bs); reflexivity|].
  apply Byte.of_N_None_iff in B. apply N.ltb_lt in Hc. lia.
Qed.

Lemma encode_ascii_not_ascii (s : str) :
  is_ascii s = false -> encode_ascii s = None.
Proof.
  induction s as [|c s IH]; intros H; [discriminate|].
  cbn [is_ascii forallb] in H. cbn [encode_ascii].
  destruct (c <? 128)%N; [|reflexivity]. cbn [andb] in H.
  rewrite (IH H). destruct (Byte.of_N c); reflexivity.
Qed.

Lemma is_ascii_app (s t : str) : is_ascii (s ++ t) = is_ascii s && is_ascii t.
Proof. apply forallb_app. Qed.

Lemma is_ascii_html_escape (s : str) : is_ascii (html_escape s) = is_ascii s.
Proof.
  induction s as [|c s IH]; [reflexivity|].
  cbn [html_escape]. rewrite is_ascii_app, IH. cbn [is_ascii forallb].
  f_equal.
  destruct (N.eqb_spec c 38) as [->|]; [reflexivity|].
  destruct (N.eqb_spec c 60) as [->|]; [reflexivity|].
  destruct (N.eqb_spec c 62) as [->|]; [reflexivity|].
  destruct (N.eqb_spec c 34) as [->|]; [reflexivity|].
  destruct (N.eqb_spec c 39) as [->|]; [reflexivity|].
  cbn [forallb]. apply andb_true_r.
Qed.

Lemma is_ascii_script_text (url : str) : is_ascii (script_text url) = is_ascii url.
Proof.
  unfold script_text. rewrite !is_ascii_app, is_ascii_html_escape.
  change (is_ascii [34%N]) with true. change (is_ascii [10%N]) with true.
  change (is_ascii (u "  <script src=")) with true.
  change (is_ascii (u "__shared/shiny-autoreload.js")) with true.
  change (is_ascii (u " data-ws-url=")) with true.
  change (is_ascii (u "></script>")) with true.
  change (is_ascii (u "</head>")) with true.
  cbn [andb]. rewrite !andb_true_r. reflexivity.
Qed.

(** With an empty script the application is called with the caller's
    [send]. *)
Lemma call_without_script (self : InjectAutoreloadMiddleware) (scope : Scope) :
  script self = [] -> __call__ self scope = (Ok tt, app self scope).
Proof.
  intros H. unfold __call__, call_app. rewrite H.
  change (len (@nil byte) =? 0)%Z with true. rewrite orb_true_r.
  destruct (negb _); reflexivity.
Qed.

(** C10, the claim as stated fails: with one [app] argument and nothing
    else, the constructor raises [UnicodeEncodeError] when
    [SHINY_AUTORELOAD_PORT] holds a character outside ASCII (here U+00E9)
    and [get_proxy_url] hands the URL back as it is. *)
Lemma init_raises_on_non_ascii_url :
  @__init__ (fun url => url) unit (Some [233%N]) (fun _ => []) [] []
  = Raise UnicodeEncodeError.
Proof. vm_compute. reflexivity. Qed.

(** C10, amended.  Extra positional or keyword arguments raise [TypeError].
    With the [app] argument alone the constructor raises only
    [UnicodeEncodeError], and only when the autoreload URL has a character
    outside ASCII; otherwise it returns the middleware around [app].  When no
    autoreload URL is configured, the script is the empty byte string and
    every scope goes to the application with the caller's [send]: what
    reaches [send] is what the application sent. *)
Theorem init_and_passthrough (get_proxy_url : str -> str) (object : Type)
    (port : option str) (app : ASGI3Application) :
  (forall (args : list object) (kwargs : list (str * object)),
      args <> [] \/ kwargs <> [] ->
      @__init__ get_proxy_url object port app args kwargs = Raise TypeError)
  /\ match autoreload_url get_proxy_url port with
     | Some url =>
         if is_ascii url
         then exists s,
             @__init__ get_proxy_url object port app [] [] =
             Ok {| Middleware.app := app; script := s |}
         else @__init__ get_proxy_url object port app [] [] =
              Raise UnicodeEncodeError
     | None =>
         @__init__ get_proxy_url object port app [] [] =
         Ok {| Middleware.app := app; script := [] |}
     end
  /\ (autoreload_url get_proxy_url port = None ->
      exists self,
        @__init__ get_proxy_url object port app [] [] = Ok self /\
        script self = [] /\
        forall scope : Scope, __call__ self scope = (Ok tt, app scope)).
Proof.
  split; [|split].
  - intros args kwargs H. unfold __init__, len.
    destruct args as [|a args]; [destruct kwargs as [|k kwargs]|].
    + destruct H; congruence.
    + reflexivity.
    + reflexivity.
  - unfold __init__. cbn [len length Z.of_nat Z.ltb Z.compare orb].
    destruct (autoreload_url get_proxy_url port) as [[|c url]|]; cbn zeta.
    + exists []. reflexivity.
    + destruct (is_ascii (c :: url)) eqn:A.
      * rewrite <- is_ascii_script_text in A.
        destruct (encode_ascii_is_ascii _ A) as (bs & E). rewrite E.
        exists bs. reflexivity.
      * rewrite <- is_ascii_script_text in A.
        rewrite (encode_ascii_not_ascii _ A). reflexivity.
    + reflexivity.
  - intros H. exists {| Middleware.app := app; script := [] |}.
    split; [|split].
    + unfold __init__. rewrite H. reflexivity.
    + reflexivity.
    + intros scope. apply call_without_script. reflexivity.
Qed.

(** The constructor at port 8123: the script that is injected. *)
Example init_at_port :
  @__init__ (fun url => url) unit (Some (u "8123")) (fun _ => []) [] [] =
  Ok {| Middleware.app := fun _ => []; script := sample_script |}.
Proof. vm_compute. reflexivity. Qed.

(* ===================================================================== *)
(** ** More on [ResponseMangler.send], for any events and any mangler *)
(* ===================================================================== *)

Lemma send_all_cons (f : bytes -> bytes * bool) (ev : ASGISendEvent)
    (evs : list ASGISendEvent) (self : ResponseMangler) :
  send_all f (ev :: evs) self =
  match send f ev self with
  | (Ok _, self') => send_all f evs self'
  | (Raise e, self') => (Raise e, self')
  end.
Proof. reflexivity. Qed.

(** From an object that is not done and has sent nothing: either it is
    still so, or the events split at the body event that flushed. *)
Lemma send_all_flush (f : bytes -> bytes * bool) (evs : list ASGISendEvent) :
  forall self0 : ResponseMangler,
    _done self0 = false ->
    sink self0 = [] ->
    ((_done (snd (send_all f evs self0)) = false /\
      sink (snd (send_all f evs self0)) = [])
     \/ (fst (send_all f evs self0) = Ok tt /\
         _done (snd (send_all f evs self0)) = true /\
         _body (snd (send_all f evs self0)) = [] /\
         _response_start (snd (send_all f evs self0)) = None /\
         exists pre e rest mid start',
           evs = pre ++ Body e :: rest /\
           send_all f pre self0 = (Ok tt, mid) /\
           _done mid = false /\
           sink (snd (send_all f evs self0)) =
             Start start'
             :: Body {| body := fst (f (_body mid ++ body e));
                        more_body := Some (match more_body e with
                                           | Some m => m
                                           | None => false
                                           end) |}
             :: rest)).
Proof.
  induction evs as [|ev evs IH]; intros self0 Hd Hk.
  - left. split; assumption.
  - assert (forall self1 : ResponseMangler,
               send f ev self0 = (Ok tt, self1) ->
               _done self1 = false -> sink self1 = [] ->
               (_done (snd (send_all f evs self1)) = false /\
                sink (snd (send_all f evs self1)) = [])
               \/ (fst (send_all f evs self1) = Ok tt /\
                   _done (snd (send_all f evs self1)) = true /\
                   _body (snd (send_all f evs self1)) = [] /\
                   _response_start (snd (send_all f evs self1)) = None /\
                   exists pre e rest mid start',
                     ev :: evs = pre ++ Body e :: rest /\
                     send_all f pre self0 = (Ok tt, mid) /\
                     _done mid = false /\
                     sink (snd (send_all f evs self1)) =
                       Start start'
                       :: Body {| body := fst (f (_body mid ++ body e));
                                  more_body := Some (match more_body e with
                                                     | Some m => m
                                                     | None => false
                                                     end) |}
                       :: rest)) as Next.
    { intros self1 Step Hd1 Hk1.
      destruct (IH self1 Hd1 Hk1)
        as [L|(O & D & B & N & pre & e & rest & mid & start' & E & P & M & K)].
      - left. exact L.
      - right. split; [exact O|]. split; [exact D|]. split; [exact B|].
        split; [exact N|].
        exists (ev :: pre), e, rest, mid, start'.
        split; [rewrite E; reflexivity|].
        split; [rewrite send_all_cons, Step; exact P|].
        split; [exact M | exact K]. }
    rewrite send_all_cons.
    destruct ev as [e0|e0|t].
    + rewrite send_start by exact Hd.
      apply Next; [apply send_start; exact Hd | reflexivity | exact Hk].
    + destruct (_response_start self0) as [start|] eqn:Hs.
      * pose proof (send_body f e0 self0 Hd Hs) as Step. cbv zeta in Step.
        rewrite Step.
        destruct (if negb _ then _ else _) as [start'|ex] eqn:A.
        -- destruct (snd _ || negb _).
           ++ rewrite send_all_done by reflexivity.
              cbn [fst snd sink _done _body _response_start]. rewrite Hk.
              right. repeat split.
              exists [], e0, evs, self0, start'. repeat split. exact Hd.
           ++ apply Next; [exact Step | reflexivity | exact Hk].
        -- cbn [fst snd sink _done]. left. split; [reflexivity | exact Hk].
      * assert (send f (Body e0) self0 = (Raise AssertionError, self0)) as ->.
        { unfold send, bind, get. rewrite Hd, Hs. reflexivity. }
        left. split; assumption.
    + rewrite send_other by exact Hd.
      apply Next; [apply send_other; exact Hd | assumption | assumption].
Qed.

(** X1. After the flush every event, of any type, goes to the sink as it
    comes and in order, and the object keeps no copy. *)
Theorem passthrough_after_flush (f : bytes -> bytes * bool)
    (events : list ASGISendEvent) (self : ResponseMangler) :
  _done self = true ->
  send_all f events self =
  (Ok tt, {| _done := true; _response_start := _response_start self;
             _body := _body self; sink := sink self ++ events |}).
Proof.
  revert self. induction events as [|ev events IH]; intros self H.
  - cbn [send_all]. unfold ret. rewrite app_nil_r.
    destruct self as [d rs bd sk]. cbn in H |- *. rewrite H. reflexivity.
  - rewrite send_all_cons, (send_done f ev self H).
    rewrite IH by reflexivity. cbn [_response_start _body sink].
    rewrite <- app_assoc. reflexivity.
Qed.

Lemma passthrough_after_flush_witness :
  _done {| _done := true; _response_start := None; _body := [];
           sink := [Start plain_start] |} = true /\
  send_all (mangle_callback sample_script)
    [Other (u "http.response.trailers"); Start sample_start]
    {| _done := true; _response_start := None; _body := [];
       sink := [Start plain_start] |} =
  (Ok tt, {| _done := true; _response_start := None; _body := [];
             sink := [Start plain_start] ++
                     [Other (u "http.response.trailers"); Start sample_start] |}).
Proof.
  split; [reflexivity|].
  exact (passthrough_after_flush (mangle_callback sample_script)
           [Other (u "http.response.trailers"); Start sample_start]
           {| _done := true; _response_start := None; _body := [];
              sink := [Start plain_start] |} eq_refl).
Defined.

(** X2. For any mangler and any sequence of events given to a new object:
    as long as it is not done nothing has been sent.  Once it is done, the
    buffered start event and body are released, and the events split into
    those taken before the flush (without an exception, the object not done
    after them), the body event that flushed, and the rest: the sink holds
    a start event, one body event with the mangled buffer and the
    [more_body] of the flushing event, and then exactly the rest, that is
    the events that came after the flush, in order. *)
Theorem any_events_shape (f : bytes -> bytes * bool)
    (events : list ASGISendEvent) :
  flushed_shape f events (snd (run f events)).
Proof.
  destruct (send_all_flush f events init eq_refl eq_refl)
    as [L|(_ & D & B & N & pre & e & rest & mid & start' & E & P & M & K)].
  - left. exact L.
  - right. split; [exact D|]. split; [exact B|]. split; [exact N|].
    exists pre, e, rest, start'. unfold run. rewrite P. cbn [fst snd].
    split; [exact E|]. split; [reflexivity|]. split; [exact M | exact K].
Qed.

(** X3. Nothing is half sent when [send] raises: for any mangler and any
    events, if a call of [send] ends with an exception (the downstream
    [send] itself returning), the object is not done and no event at all has
    reached the sink. *)
Theorem failure_sends_nothing (f : bytes -> bytes * bool)
    (events : list ASGISendEvent) (e : exn) :
  fst (run f events) = Raise e ->
  _done (snd (run f events)) = false /\
  sink (snd (run f events)) = [].
Proof.
  intros H.
  destruct (send_all_flush f events init eq_refl eq_refl) as [L|(O & _)].
  - exact L.
  - unfold run in H. rewrite O in H. discriminate H.
Qed.

Lemma failure_sends_nothing_witness :
  fst (run (mangle_callback sample_script)
         (response latin1_name_start sample_chunks)) = Raise UnicodeDecodeError /\
  _done (snd (run (mangle_callback sample_script)
                (response latin1_name_start sample_chunks))) = false /\
  sink (snd (run (mangle_callback sample_script)
               (response latin1_name_start sample_chunks))) = [].
Proof.
  assert (fst (run (mangle_callback sample_script)
                 (response latin1_name_start sample_chunks))
          = Raise UnicodeDecodeError) as H by (vm_compute; reflexivity).
  split; [exact H|].
  exact (failure_sends_nothing (mangle_callback sample_script)
           (response latin1_name_start sample_chunks) UnicodeDecodeError H).
Defined.

(* ===================================================================== *)
(** ** More on [_add_to_content_length] *)
(* ===================================================================== *)

Lemma add_to_header_ok_iff (offset : Z) (h : header) :
  (exists h', add_to_header offset h = Ok h') <->
  match decode_ascii (fst h) with
  | Some _ => negb (names_content_length (fst h)) || reads_as_int (snd h)
  | None => false
  end = true.
Proof.
  destruct h as [name value]. cbn [fst snd add_to_header].
  unfold names_content_length, is_content_length, reads_as_int.
  destruct (decode_ascii name) as [s|].
  - destruct (str_eqb (lower s) (u "content-length")); cbn [negb orb].
    + destruct (int value); split; intros H;
        try (eexists; reflexivity); try reflexivity;
        try discriminate; destruct H; discriminate.
    + split; intros _; [reflexivity | eexists; reflexivity].
  - split; [intros [h' H]; discriminate | discriminate].
Qed.

(** In the embedding, whose [int] and [str] have no digit limit, the call
    returns exactly on the headers that are [correctable]. *)
Lemma add_to_content_length_returns_model (event : HTTPResponseStartEvent)
    (offset : Z) :
  (exists event', _add_to_content_length event offset = Ok event') <->
  correctable (ASGI.headers event) = true.
Proof.
  unfold _add_to_content_length.
  assert ((exists hs', add_to_headers offset (ASGI.headers event) = Ok hs') <->
          correctable (ASGI.headers event) = true) as H.
  { generalize (ASGI.headers event) as hs.
    induction hs as [|h hs IH].
    - split; [reflexivity | intros _; exists []; reflexivity].
    - cbn [correctable forallb add_to_headers]. rewrite andb_true_iff.
      fold (correctable hs). rewrite <- IH, <- (add_to_header_ok_iff offset h).
      split.
      + intros [hs' H].
        destruct (add_to_header offset h) as [h'|]; [|discriminate].
        destruct (add_to_headers offset hs) as [r|]; [|discriminate].
        split; eexists; reflexivity.
      + intros [[h' H1] [r H2]]. rewrite H1, H2. eexists. reflexivity. }
  rewrite <- H. split.
  - intros [event' E].
    destruct (add_to_headers offset (ASGI.headers event)) as [hs|];
      [|discriminate].
    exists hs. reflexivity.
  - intros [hs E]. rewrite E. eexists. reflexivity.
Qed.

Lemma correctable_within_correctable (offset : Z) (hs : list header) :
  correctable_within offset hs = true -> correctable hs = true.
Proof.
  induction hs as [|[name value] hs IH]; intros H; [reflexivity|].
  cbn [correctable_within correctable forallb fst snd] in H |- *.
  apply andb_true_iff in H. destruct H as [H1 H2].
  fold (correctable_within offset hs) in H2. fold (correctable hs).
  rewrite (IH H2), andb_true_r.
  revert H1. unfold reads_as_int.
  destruct (decode_ascii name); [|intros H1; exact H1].
  destruct (names_content_length name); [|reflexivity].
  cbn [negb orb]. intros H1. apply andb_true_iff in H1. destruct H1 as [_ H1].
  revert H1. destruct (int value); [reflexivity | intros H1; exact H1].
Qed.

(** X4. [_add_to_content_length] returns whenever every header name is
    ASCII and every [Content-Length] value reads as an integer, the value
    and its sum with the offset staying within the interpreter's limit of
    4300 digits; and it raises whenever some header name is not ASCII or
    some [Content-Length] value does not read as an integer. *)
Theorem add_to_content_length_returns_or_raises (event : HTTPResponseStartEvent)
    (offset : Z) :
  (correctable_within offset (ASGI.headers event) = true ->
   exists event', _add_to_content_length event offset = Ok event')
  /\ (correctable (ASGI.headers event) = false ->
      exists e, _add_to_content_length event offset = Raise e).
Proof.
  split; intros H.
  - apply add_to_content_length_returns_model.
    exact (correctable_within_correctable offset _ H).
  - destruct (_add_to_content_length event offset) as [event'|e] eqn:E.
    + assert (correctable (ASGI.headers event) = true) as C
        by (apply (add_to_content_length_returns_model event offset);
            exists event'; exact E).
      congruence.
    + exists e. reflexivity.
Qed.

Lemma add_to_headers_compose (a c : Z) (hs : list header) :
  forall hs1 : list header,
    add_to_headers a hs = Ok hs1 ->
    add_to_headers c hs1 = add_to_headers (a + c) hs.
Proof.
  induction hs as [|[name value] hs IH]; intros hs1 H.
  - injection H as <-. reflexivity.
  - cbn [add_to_headers add_to_header] in H |- *.
    destruct (is_content_length name) as [[|]|ex] eqn:C; [| |discriminate].
    + destruct (int value) as [n|]; [|discriminate].
      destruct (add_to_headers a hs) as [r|] eqn:R; [|discriminate].
      injection H as <-. cbn [add_to_headers add_to_header].
      rewrite C, int_str_of_int, (IH r eq_refl), Z.add_assoc. reflexivity.
    + destruct (add_to_headers a hs) as [r|] eqn:R; [|discriminate].
      injection H as <-. cbn [add_to_headers add_to_header].
      rewrite C, (IH r eq_refl). reflexivity.
Qed.

(** X5. Two corrections in a row are one correction by the sum of the
    offsets: if [_add_to_content_length] by [a] returns, then a further call
    by [c] gives what a single call by [a + c] gives on the first event. *)
Theorem add_to_content_length_composes (event event1 : HTTPResponseStartEvent)
    (a c : Z) :
  _add_to_content_length event a = Ok event1 ->
  _add_to_content_length event1 c = _add_to_content_length event (a + c).
Proof.
  unfold _add_to_content_length.
  destruct (add_to_headers a (ASGI.headers event)) as [hs1|] eqn:E;
    [|discriminate].
  intros H. injection H as <-. cbn [ASGI.headers status].
  rewrite (add_to_headers_compose a c _ _ E). reflexivity.
Qed.

Lemma add_to_content_length_composes_witness :
  _add_to_content_length sample_start 100 =
    Ok {| status := 200;
          ASGI.headers := [(b "content-type", b "text/html");
                           (b "Content-Length", b "126")] |} /\
  _add_to_content_length
    {| status := 200;
       ASGI.headers := [(b "content-type", b "text/html");
                        (b "Content-Length", b "126")] |} (-100) =
  _add_to_content_length sample_start (100 + -100).
Proof.
  assert (_add_to_content_length sample_start 100 =
          Ok {| status := 200;
                ASGI.headers := [(b "content-type", b "text/html");
                                 (b "Content-Length", b "126")] |}) as H
    by (vm_compute; reflexivity).
  split; [exact H|].
  exact (add_to_content_length_composes sample_start _ 100 (-100) H).
Defined.

Lemma add_to_headers_without_length (offset : Z) (hs : list header) :
  ascii_names hs = true ->
  no_content_length hs = true ->
  add_to_headers offset hs = Ok hs.
Proof.
  induction hs as [|[name value] hs IH]; intros Ha Hn; [reflexivity|].
  cbn [ascii_names no_content_length forallb fst] in Ha, Hn.
  apply andb_true_iff in Ha. destruct Ha as [Ha1 Ha2].
  apply andb_true_iff in Hn. destruct Hn as [Hn1 Hn2].
  cbn [add_to_headers add_to_header].
  rewrite names_content_length_ascii
    by (destruct (decode_ascii name); [discriminate | discriminate Ha1]).
  apply negb_true_iff in Hn1. rewrite Hn1, (IH Ha2 Hn2). reflexivity.
Qed.

Lemma add_to_headers_bad_length (offset : Z) (hs : list header) :
  ascii_names hs = true ->
  bad_content_length hs = true ->
  add_to_headers offset hs = Raise ValueError.
Proof.
  induction hs as [|[name value] hs IH]; intros Ha Hb; [discriminate|].
  cbn [ascii_names bad_content_length forallb existsb fst snd] in Ha, Hb.
  apply andb_true_iff in Ha. destruct Ha as [Ha1 Ha2].
  cbn [add_to_headers add_to_header].
  rewrite names_content_length_ascii
    by (destruct (decode_ascii name); [discriminate | discriminate Ha1]).
  unfold reads_as_int in Hb.
  destruct (names_content_length name); cbn [andb orb] in Hb.
  - destruct (int value) as [n|]; [|reflexivity].
    cbn [negb orb] in Hb. fold (bad_content_length hs) in Hb.
    rewrite (IH Ha2 Hb). reflexivity.
  - fold (bad_content_length hs) in Hb. rewrite (IH Ha2 Hb). reflexivity.
Qed.

(** X6. A response without a [Content-Length] header (chunked transfer)
    whose body contains the marker: with ASCII header names the start event
    is sent exactly as it came, and the body events that follow it carry the
    body with the first marker replaced by the script. *)
Theorem rewrite_without_content_length (script : bytes)
    (start : HTTPResponseStartEvent) (chunks : list bytes) :
  contains head_end (concat chunks) = true ->
  ascii_names (ASGI.headers start) = true ->
  no_content_length (ASGI.headers start) = true ->
  exists bodies,
    run (mangle_callback script) (response start chunks) =
      (Ok tt, {| _done := true; _response_start := None; _body := [];
                 sink := Start start :: bodies |}) /\
    forallb is_body bodies = true /\
    total_body bodies = replace_first head_end script (concat chunks).
Proof.
  intros Hm Ha Hn. rewrite run_response.
  assert (corrected_start script start = Ok start) as C.
  { unfold corrected_start, _add_to_content_length.
    destruct (len script =? len head_end)%Z; [reflexivity|].
    rewrite (add_to_headers_without_length _ _ Ha Hn).
    destruct start; reflexivity. }
  pose proof (marker_run script start chunks [] eq_refl Hm) as R.
  rewrite C in R. destruct R as (chunks' & R & _ & Hc).
  exists (body_events chunks'). split; [exact R|].
  split; [apply body_events_are_bodies|].
  rewrite total_body_body_events. exact Hc.
Qed.

Lemma rewrite_without_content_length_witness :
  contains head_end (concat sample_chunks) = true /\
  ascii_names [(b "transfer-encoding", b "chunked")] = true /\
  no_content_length [(b "transfer-encoding", b "chunked")] = true /\
  exists bodies,
    run (mangle_callback sample_script)
      (response {| status := 200;
                   ASGI.headers := [(b "transfer-encoding", b "chunked")] |}
         sample_chunks) =
      (Ok tt, {| _done := true; _response_start := None; _body := [];
                 sink := Start {| status := 200;
                                  ASGI.headers :=
                                    [(b "transfer-encoding", b "chunked")] |}
                           :: bodies |}) /\
    forallb is_body bodies = true /\
    total_body bodies =
      replace_first head_end sample_script (concat sample_chunks).
Proof.
  assert (contains head_end (concat sample_chunks) = true) as H1
    by (vm_compute; reflexivity).
  assert (ascii_names [(b "transfer-encoding", b "chunked")] = true) as H2
    by (vm_compute; reflexivity).
  assert (no_content_length [(b "transfer-encoding", b "chunked")] = true) as H3
    by (vm_compute; reflexivity).
  split; [exact H1|]. split; [exact H2|]. split; [exact H3|].
  exact (rewrite_without_content_length sample_script
           {| status := 200;
              ASGI.headers := [(b "transfer-encoding", b "chunked")] |}
           sample_chunks H1 H2 H3).
Defined.

(** X7. A body with the marker behind a start event whose header names are
    ASCII but which has a [Content-Length] value that does not read as an
    integer: when the script is not as long as the marker, [send] raises
    [ValueError] on the chunk that completes the marker, and nothing is
    sent, however the body is chunked. *)
Theorem unreadable_content_length_raises (script : bytes)
    (start : HTTPResponseStartEvent) (chunks : list bytes) :
  contains head_end (concat chunks) = true ->
  len script <> len head_end ->
  ascii_names (ASGI.headers start) = true ->
  bad_content_length (ASGI.headers start) = true ->
  fst (run (mangle_callback script) (response start chunks)) = Raise ValueError
  /\ sink (snd (run (mangle_callback script) (response start chunks))) = [].
Proof.
  intros Hm Hl Ha Hb. rewrite run_response.
  assert (corrected_start script start = Raise ValueError) as C.
  { unfold corrected_start, _add_to_content_length.
    destruct (Z.eqb_spec (len script) (len head_end)); [contradiction|].
    rewrite (add_to_headers_bad_length _ _ Ha Hb). reflexivity. }
  pose proof (marker_run script start chunks [] eq_refl Hm) as R.
  rewrite C in R. destruct R as (self & R & Hk). rewrite R.
  split; [reflexivity | exact Hk].
Qed.

Lemma unreadable_content_length_raises_witness :
  contains head_end (concat sample_chunks) = true /\
  len sample_script <> len head_end /\
  ascii_names [(b "content-length", b "26 bytes")] = true /\
  bad_content_length [(b "content-length", b "26 bytes")] = true /\
  fst (run (mangle_callback sample_script)
         (response {| status := 200;
                      ASGI.headers := [(b "content-length", b "26 bytes")] |}
            sample_chunks)) = Raise ValueError /\
  sink (snd (run (mangle_callback sample_script)
               (response {| status := 200;
                            ASGI.headers := [(b "content-length", b "26 bytes")] |}
                  sample_chunks))) = [].
Proof.
  assert (contains head_end (concat sample_chunks) = true) as H1
    by (vm_compute; reflexivity).
  assert (len sample_script <> len head_end) as H2
    by (vm_compute; discriminate).
  assert (ascii_names [(b "content-length", b "26 bytes")] = true) as H3
    by (vm_compute; reflexivity).
  assert (bad_content_length [(b "content-length", b "26 bytes")] = true) as H4
    by (vm_compute; reflexivity).
  split; [exact H1|]. split; [exact H2|]. split; [exact H3|]. split; [exact H4|].
  exact (unreadable_content_length_raises sample_script
           {| status := 200;
              ASGI.headers := [(b "content-length", b "26 bytes")] |}
           sample_chunks H1 H2 H3 H4).
Defined.

(* ===================================================================== *)
(** ** More on [mangle_callback], the script and [__call__] *)
(* ===================================================================== *)

Lemma prefixb_self_app (old post : bytes) : prefixb old (old ++ post) = true.
Proof.
  induction old as [|x old IH]; [reflexivity|].
  cbn [List.app prefixb]. rewrite IH, andb_true_r.
  apply Byte.byte_dec_lb. reflexivity.
Qed.

Lemma skipn_self_app (old post : bytes) : skipn (length old) (old ++ post) = post.
Proof. induction old as [|x old IH]; [reflexivity | exact IH]. Qed.

Lemma contains_eq (old s : bytes) :
  contains old s =
  if prefixb old s then true
  else match s with
       | [] => false
       | _ :: s' => contains old s'
       end.
Proof. destruct s; reflexivity. Qed.

Lemma replace_first_eq (old new s : bytes) :
  replace_first old new s =
  if prefixb old s then new ++ skipn (length old) s
  else match s with
       | [] => []
       | c :: s' => c :: replace_first old new s'
       end.
Proof. destruct s; reflexivity. Qed.

(** [replace] with count 1, told by position: when [old] does not start
    anywhere in front of its occurrence behind [pre], that occurrence is the
    one replaced. *)
Lemma replace_first_at (old new pre post : bytes) :
  contains old (pre ++ removelast old) = false ->
  contains old (pre ++ old ++ post) = true /\
  replace_first old new (pre ++ old ++ post) = pre ++ new ++ post.
Proof.
  induction pre as [|c pre IH]; intros H.
  - cbn [List.app]. rewrite contains_eq, replace_first_eq.
    rewrite prefixb_self_app, skipn_self_app. split; reflexivity.
  - destruct old as [|x old'] eqn:Eo.
    { destruct (pre ++ removelast []); discriminate H. }
    rewrite <- Eo in *.
    assert (old <> []) as Hne by (rewrite Eo; discriminate).
    change ((c :: pre) ++ removelast old) with (c :: pre ++ removelast old) in H.
    cbn [contains] in H.
    destruct (prefixb old (c :: pre ++ removelast old)) eqn:P; [discriminate|].
    destruct (IH H) as [IHc IHr].
    assert (prefixb old (c :: pre ++ old ++ post) = false) as P'.
    { rewrite (app_removelast_last x Hne) at 2.
      rewrite <- app_assoc, app_assoc.
      change (c :: (pre ++ removelast old) ++ [last old x] ++ post)
        with ((c :: pre ++ removelast old) ++ [last old x] ++ post).
      rewrite prefixb_app; [exact P|].
      cbn [length]. rewrite length_app.
      pose proof (f_equal (@length byte) (app_removelast_last x Hne)) as L.
      rewrite length_app in L. cbn [length] in L. lia. }
    change ((c :: pre) ++ old ++ post) with (c :: pre ++ old ++ post).
    cbn [contains replace_first]. rewrite P', IHc, IHr. split; reflexivity.
Qed.

Lemma mangle_callback_at (script pre post : bytes) :
  contains head_end (pre ++ b "</head") = false ->
  mangle_callback script (pre ++ head_end ++ post) =
  (pre ++ script ++ post, true).
Proof.
  intros H. unfold mangle_callback.
  destruct (replace_first_at head_end script pre post H) as [C R].
  rewrite C, R. reflexivity.
Qed.

(** X8. [mangle_callback] on a body whose first marker stands behind [pre]:
    it returns [pre], the script, and everything behind the marker, and
    reports that it is done. *)
Theorem mangle_callback_splices (script pre post : bytes) :
  contains head_end (pre ++ b "</head") = false ->
  mangle_callback script (pre ++ head_end ++ post) =
  (pre ++ script ++ post, true).
Proof.
  intros H. unfold mangle_callback.
  destruct (replace_first_at head_end script pre post H) as [C R].
  rewrite C. rewrite R. reflexivity.
Qed.

Lemma mangle_callback_splices_witness :
  contains head_end (b "<head><title>a</title>" ++ b "</head") = false /\
  mangle_callback sample_script
    (b "<head><title>a</title>" ++ head_end ++ b "<body></head></body>") =
  (b "<head><title>a</title>" ++ sample_script ++ b "<body></head></body>", true).
Proof.
  assert (contains head_end (b "<head><title>a</title>" ++ b "</head") = false)
    as H by (vm_compute; reflexivity).
  split; [exact H|].
  exact (mangle_callback_splices sample_script (b "<head><title>a</title>")
           (b "<body></head></body>") H).
Defined.

Lemma encode_ascii_app (s t : str) (bs : bytes) :
  encode_ascii (s ++ t) = Some bs ->
  exists bs1 bs2,
    encode_ascii s = Some bs1 /\ encode_ascii t = Some bs2 /\ bs = bs1 ++ bs2.
Proof.
  revert bs. induction s as [|c s IH]; intros bs H.
  - exists [], bs. repeat split. exact H.
  - cbn [List.app encode_ascii] in H |- *.
    destruct (c <? 128)%N; [|discriminate].
    destruct (Byte.of_N c) as [x|]; [|discriminate].
    destruct (encode_ascii (s ++ t)) as [r|] eqn:E; [|discriminate].
    injection H as <-. destruct (IH r eq_refl) as (bs1 & bs2 & E1 & E2 & ->).
    rewrite E1. exists (x :: bs1), bs2. repeat split. exact E2.
Qed.

(** X9. A middleware that [__init__] returns has either an empty script or
    a script that ends with the marker it replaces: on a body whose first
    marker stands behind [pre], [mangle_callback] puts the rest of the
    script in front of that marker and changes nothing else. *)
Theorem script_goes_before_marker (get_proxy_url : str -> str) (object : Type)
    (port : option str) (app : ASGI3Application)
    (self : InjectAutoreloadMiddleware) :
  @__init__ get_proxy_url object port app [] [] = Ok self ->
  script self = [] \/
  exists tag,
    script self = tag ++ head_end /\
    forall pre post : bytes,
      contains head_end (pre ++ b "</head") = false ->
      mangle_callback (script self) (pre ++ head_end ++ post) =
      (pre ++ tag ++ head_end ++ post, true).
Proof.
  unfold __init__. cbn [len length Z.of_nat Z.ltb Z.compare orb].
  destruct (autoreload_url get_proxy_url port) as [[|c url]|].
  - intros H. injection H as <-. left. reflexivity.
  - destruct (encode_ascii (script_text (c :: url))) as [s|] eqn:E;
      [|discriminate].
    intros H. injection H as <-. right. cbn [script].
    unfold script_text in E. rewrite !app_assoc in E.
    destruct (encode_ascii_app _ _ _ E) as (tag & m & _ & Em & ->).
    assert (m = head_end) as -> by (vm_compute in Em; injection Em as <-; reflexivity).
    exists tag. split; [reflexivity|]. intros pre post H.
    rewrite (mangle_callback_at (tag ++ head_end) pre post H).
    rewrite <- app_assoc. reflexivity.
  - intros H. injection H as <-. left. reflexivity.
Qed.

Lemma script_goes_before_marker_witness :
  @__init__ (fun url => url) unit (Some (u "8123")) (fun _ => []) [] [] =
    Ok {| Middleware.app := fun _ => []; script := sample_script |} /\
  (script {| Middleware.app := fun _ => []; script := sample_script |} = [] \/
   exists tag,
     script {| Middleware.app := fun _ => []; script := sample_script |} =
       tag ++ head_end /\
     forall pre post : bytes,
       contains head_end (pre ++ b "</head") = false ->
       mangle_callback
         (script {| Middleware.app := fun _ => []; script := sample_script |})
         (pre ++ head_end ++ post) =
       (pre ++ tag ++ head_end ++ post, true)).
Proof.
  assert (@__init__ (fun url => url) unit (Some (u "8123")) (fun _ => []) [] [] =
          Ok {| Middleware.app := fun _ => []; script := sample_script |}) as H
    by (vm_compute; reflexivity).
  split; [exact H|].
  exact (script_goes_before_marker (fun url => url) unit (Some (u "8123"))
           (fun _ => []) _ H).
Defined.

Lemma html_escape_plain (url : str) :
  forallb (fun c => negb (is_markup c)) url = true -> html_escape url = url.
Proof.
  induction url as [|c url IH]; intros H; [reflexivity|].
  cbn [forallb] in H. apply andb_true_iff in H. destruct H as [Hc Hu].
  cbn [html_escape]. rewrite (IH Hu). unfold is_markup in Hc.
  apply negb_true_iff in Hc. rewrite !orb_false_iff in Hc.
  destruct Hc as [[[[-> ->] ->] ->] ->]. reflexivity.
Qed.

(** X10. The URL in the [data-ws-url] attribute of the script text: after
    [html.escape] it holds no double quote, no single quote and no angle
    bracket, whatever [get_proxy_url] returned, so it cannot end the
    attribute or the tag; and a URL without the five characters that
    [html.escape] replaces stands in the script text as it is. *)
Theorem script_url_is_escaped (url : str) :
  script_text url =
    (u "  <script src=" ++ [34%N] ++ u "__shared/shiny-autoreload.js" ++ [34%N]
       ++ u " data-ws-url=" ++ [34%N])
    ++ html_escape url
    ++ ([34%N] ++ u "></script>" ++ [10%N] ++ u "</head>")
  /\ forallb (fun c => negb ((c =? 34) || (c =? 39) || (c =? 60) || (c =? 62))%N)
       (html_escape url) = true
  /\ (forallb (fun c => negb (is_markup c)) url = true -> html_escape url = url).
Proof.
  split; [|split].
  - unfold script_text. rewrite <- !app_assoc. reflexivity.
  - induction url as [|c url IH]; [reflexivity|].
    cbn [html_escape]. rewrite forallb_app, IH, andb_true_r.
    destruct (N.eqb_spec c 38) as [->|H38]; [reflexivity|].
    destruct (N.eqb_spec c 60) as [->|H60]; [reflexivity|].
    destruct (N.eqb_spec c 62) as [->|H62]; [reflexivity|].
    destruct (N.eqb_spec c 34) as [->|H34]; [reflexivity|].
    destruct (N.eqb_spec c 39) as [->|H39]; [reflexivity|].
    cbn [forallb]. rewrite andb_true_r.
    apply N.eqb_neq in H34, H39, H60, H62. rewrite H34, H39, H60, H62.
    reflexivity.
  - apply html_escape_plain.
Qed.



(* ===================================================================== *)
(** ** More on the reload server and the worker *)
(* ===================================================================== *)

Import Process.

(** X12. A [/notify] connection that presents the secret: the handler reads
    exactly one frame and returns; it calls [nudge], once, exactly when that
    frame is the text [reload_end] (a binary frame of the same bytes does
    not count); when the peer closes before sending, [ConnectionClosed] is
    swallowed and nothing happens. *)
Theorem notify_reads_one_frame (Headers : Type)
    (get : Headers -> str -> option str) (secret app_url : str)
    (req : Request Headers) (fuel : nat) (p : Peer) (c : Closure) :
  path req = u "/notify" ->
  get_default get (headers req) (u "Shiny-Autoreload-Secret") [] = secret ->
  run_handler app_url (3 + fuel) (reload_server get secret (Some req)) [] p c =
  match inbox p with
  | [] =>
      {| returned := Some (Ok tt); actions := [Received None];
         peer := p; closure := c |}
  | d :: rest =>
      {| returned := Some (Ok tt);
         actions := Received (Some d)
                    :: (if is_reload_end d then [Nudged] else []);
         peer := {| inbox := rest; accepts := accepts p |};
         closure := if is_reload_end d then nudge app_url c else c |}
  end.
Proof.
  intros Hp Hs. unfold reload_server. rewrite Hp, Hs.
  change (str_eqb (u "/notify") (u "/autoreload")) with false.
  rewrite !str_eqb_refl. cbv iota. cbn [negb].
  destruct p as [[|d rest] n].
  - reflexivity.
  - destruct d as [s|bs].
    + cbn [inbox accepts is_reload_end].
      match goal with
      | |- ?L = _ =>
          change L with
            (run_handler app_url (S (S fuel))
               (if str_eqb s (u "reload_end")
                then ITree.bind (ITree.trigger Nudge) (fun _ => Ret (Ok tt))
                else Ret (Ok tt))
               [Received (Some (Text s))]
               {| inbox := rest; accepts := n |} c)
      end.
      destruct (str_eqb s (u "reload_end")); reflexivity.
    + reflexivity.
Qed.

Lemma notify_reads_one_frame_witness :
  path (notify_request (u "abc")) = u "/notify" /\
  get_default field_get (headers (notify_request (u "abc")))
    (u "Shiny-Autoreload-Secret") [] = u "abc" /\
  run_handler (u "http://127.0.0.1:8000/") (3 + 0)
    (reload_server field_get (u "abc") (Some (notify_request (u "abc"))))
    [] worker_peer first_start =
  match inbox worker_peer with
  | [] =>
      {| returned := Some (Ok tt); actions := [Received None];
         peer := worker_peer; closure := first_start |}
  | d :: rest =>
      {| returned := Some (Ok tt);
         actions := Received (Some d)
                    :: (if is_reload_end d then [Nudged] else []);
         peer := {| inbox := rest; accepts := accepts worker_peer |};
         closure := if is_reload_end d
                    then nudge (u "http://127.0.0.1:8000/") first_start
                    else first_start |}
  end.
Proof.
  assert (get_default field_get (headers (notify_request (u "abc")))
            (u "Shiny-Autoreload-Secret") [] = u "abc") as H2
    by (vm_compute; reflexivity).
  split; [reflexivity|]. split; [exact H2|].
  exact (notify_reads_one_frame (list (str * str)) field_get (u "abc")
           (u "http://127.0.0.1:8000/") (notify_request (u "abc")) 0
           worker_peer first_start eq_refl H2).
Defined.

Lemma autoreload_round (app_url : str) (fuel : nat) (acts : list action)
    (frames : list Data) (n : nat) (c : Closure) :
  run_handler app_url (3 + fuel) autoreload_loop acts
    {| inbox := frames; accepts := S n |} c =
  run_handler app_url fuel autoreload_loop
    ((acts ++ [Waited]) ++ [Sent (u "autoreload")])
    {| inbox := frames; accepts := n |} c.
Proof. reflexivity. Qed.

Lemma autoreload_closed (app_url : str) (fuel : nat) (acts : list action)
    (frames : list Data) (c : Closure) :
  run_handler app_url (3 + fuel) autoreload_loop acts
    {| inbox := frames; accepts := 0 |} c =
  {| returned := Some (Ok tt); actions := acts ++ [Waited];
     peer := {| inbox := frames; accepts := 0 |}; closure := c |}.
Proof. reflexivity. Qed.

Lemma autoreload_rounds (app_url : str) (frames : list Data) (c : Closure)
    (extra : nat) (k : nat) :
  forall acts : list action,
    run_handler app_url (3 * k + 3 + extra) autoreload_loop acts
      {| inbox := frames; accepts := k |} c =
    {| returned := Some (Ok tt); actions := acts ++ pushes k ++ [Waited];
       peer := {| inbox := frames; accepts := 0 |}; closure := c |}.
Proof.
  induction k as [|k IH]; intros acts.
  - apply autoreload_closed.
  - replace (3 * S k + 3 + extra)%nat with (3 + (3 * k + 3 + extra))%nat by lia.
    rewrite autoreload_round, IH. cbn [pushes].
    rewrite <- !app_assoc. reflexivity.
Qed.

(** X13. An [/autoreload] connection whose peer takes [k] messages before
    it is gone: the handler waits for a pulse and pushes ["autoreload"],
    [k] times over, waits once more, and returns normally when the next push
    meets the closed connection.  It never reads a frame and never calls
    [nudge]: the frames the peer sends stay unread and the closure of
    [nudge] is as it was. *)
Theorem autoreload_pushes_until_closed (Headers : Type)
    (get : Headers -> str -> option str) (secret app_url : str)
    (req : Request Headers) (frames : list Data) (k extra : nat) (c : Closure) :
  path req = u "/autoreload" ->
  run_handler app_url (3 * k + 3 + extra) (reload_server get secret (Some req)) []
    {| inbox := frames; accepts := k |} c =
  {| returned := Some (Ok tt); actions := pushes k ++ [Waited];
     peer := {| inbox := frames; accepts := 0 |}; closure := c |}.
Proof.
  intros Hp. unfold reload_server. rewrite Hp, str_eqb_refl.
  apply (autoreload_rounds app_url frames c extra k []).
Qed.

Lemma autoreload_pushes_until_closed_witness :
  path plain_request = u "/autoreload" /\
  run_handler (u "http://127.0.0.1:8000/") (3 * 2 + 3 + 0)
    (reload_server field_get (u "abc") (Some plain_request)) []
    {| inbox := [Text (u "reload_end")]; accepts := 2 |} first_start =
  {| returned := Some (Ok tt); actions := pushes 2 ++ [Waited];
     peer := {| inbox := [Text (u "reload_end")]; accepts := 0 |};
     closure := first_start |}.
Proof.
  split; [reflexivity|].
  exact (autoreload_pushes_until_closed (list (str * str)) field_get (u "abc")
           (u "http://127.0.0.1:8000/") plain_request [Text (u "reload_end")]
           2 0 first_start eq_refl).
Defined.

Lemma str_of_Z_not_empty (n : Z) : str_of_Z n <> [].
Proof.
  unfold str_of_Z, str_of_int. destruct (n <? 0)%Z; [discriminate|].
  unfold decimal.
  destruct (to_digits_head (Z.to_nat (Z.log2 n)) n []) as (d & tl & _ & E).
  rewrite E. discriminate.
Qed.

Lemma environment_port (get_proxy_url : str -> str) (secret : str)
    (env : environ) (port app_port : Z) (lb : bool) :
  getenv (environment (start_server get_proxy_url secret env port app_port lb))
    (u "SHINY_AUTORELOAD_PORT") = Some (str_of_Z port).
Proof. reflexivity. Qed.

Lemma environment_secret (get_proxy_url : str -> str) (secret : str)
    (env : environ) (port app_port : Z) (lb : bool) :
  getenv_or (environment (start_server get_proxy_url secret env port app_port lb))
    (u "SHINY_AUTORELOAD_SECRET") [] = secret.
Proof. reflexivity. Qed.

(** X14. The environment round trip: in the environment that
    [start_server] leaves, a log record whose message contains
    ["Application startup complete."] and not ["Reloading..."] makes [emit]
    create a task that, when the server accepts the connection, connects to
    [ws://127.0.0.1:<port>/notify] with the header [Shiny-Autoreload-Secret]
    set to the secret of that server, sends the one frame [reload_end] (if
    the connection still takes it), leaves and finishes without an
    exception. *)
Theorem worker_notifies_with_server_secret (get_proxy_url : str -> str)
    (secret : str) (env : environ) (port app_port : Z) (lb : bool)
    (message : str) :
  str_contains (u "Reloading...") message = false ->
  str_contains (u "Application startup complete.") message = true ->
  exists task,
    emit (environment (start_server get_proxy_url secret env port app_port lb))
      message = Some task /\
    forall (fuel taken : nat),
      run_task (4 + fuel) task [] {| answer := Connected; takes := taken |} =
      (Some Finished,
       Opened (u "ws://127.0.0.1:" ++ str_of_Z port ++ u "/notify")
         [(u "Shiny-Autoreload-Secret", secret)]
       :: (match taken with
           | O => []
           | S _ => [Framed (u "reload_end")]
           end) ++ [Left]).
Proof.
  intros Hr Hs. unfold emit. rewrite Hr, Hs. unfold reload_end.
  rewrite environment_port.
  destruct (str_of_Z port) as [|d ds] eqn:E;
    [exfalso; exact (str_of_Z_not_empty port E)|].
  eexists. split; [reflexivity|].
  intros fuel [|taken]; reflexivity.
Qed.

Lemma worker_notifies_with_server_secret_witness :
  str_contains (u "Reloading...") (u "INFO: Application startup complete.")
    = false /\
  str_contains (u "Application startup complete.")
    (u "INFO: Application startup complete.") = true /\
  exists task,
    emit (environment (start_server (fun url => url) (u "5f2a") (fun _ => None)
                         8123 8000 true))
      (u "INFO: Application startup complete.") = Some task /\
    forall (fuel taken : nat),
      run_task (4 + fuel) task [] {| answer := Connected; takes := taken |} =
      (Some Finished,
       Opened (u "ws://127.0.0.1:" ++ str_of_Z 8123 ++ u "/notify")
         [(u "Shiny-Autoreload-Secret", u "5f2a")]
       :: (match taken with
           | O => []
           | S _ => [Framed (u "reload_end")]
           end) ++ [Left]).
Proof.
  assert (str_contains (u "Reloading...")
            (u "INFO: Application startup complete.") = false) as H1
    by (vm_compute; reflexivity).
  assert (str_contains (u "Application startup complete.")
            (u "INFO: Application startup complete.") = true) as H2
    by (vm_compute; reflexivity).
  split; [exact H1|]. split; [exact H2|].
  exact (worker_notifies_with_server_secret (fun url => url) (u "5f2a")
           (fun _ => None) 8123 8000 true
           (u "INFO: Application startup complete.") H1 H2).
Defined.

(** X15. The notification is accepted: the handler that [_thread_main]
    serves for the arguments of [start_server], on a [/notify] request that
    carries the secret of that [start_server] and a peer that sends the text
    frame [reload_end], reads the frame and calls [nudge] once; starting from
    the closure of [_coro_main] this opens the application URL
    [get_proxy_url("http://127.0.0.1:<app_port>/")] in the browser exactly
    when [launch_browser] was passed, and pulses [reload_now] once. *)
Theorem worker_notification_is_accepted (Headers : Type)
    (get : Headers -> str -> option str) (get_proxy_url : str -> str)
    (secret : str) (env : environ) (port app_port : Z) (lb : bool)
    (req : Request Headers) (fuel : nat) :
  path req = u "/notify" ->
  get (headers req) (u "Shiny-Autoreload-Secret") = Some secret ->
  run_handler
    (thread_app_url (start_server get_proxy_url secret env port app_port lb))
    (3 + fuel)
    (handler
       (_thread_main get (start_server get_proxy_url secret env port app_port lb))
       (Some req))
    [] {| inbox := [Text (u "reload_end")]; accepts := 0 |}
    (shared
       (_thread_main get (start_server get_proxy_url secret env port app_port lb)))
  = {| returned := Some (Ok tt);
       actions := [Received (Some (Text (u "reload_end"))); Nudged];
       peer := {| inbox := []; accepts := 0 |};
       closure :=
         {| launch_browser := false;
            effects :=
              (if lb
               then [BrowserOpen
                       (get_proxy_url
                          (u "http://127.0.0.1:" ++ str_of_Z app_port ++ u "/")) 1]
               else [])
              ++ [EventSet; EventClear] |} |}.
Proof.
  intros Hp Hs.
  change (handler
            (_thread_main get
               (start_server get_proxy_url secret env port app_port lb)))
    with (reload_server get secret).
  unfold reload_server, get_default. rewrite Hp, Hs.
  change (str_eqb (u "/notify") (u "/autoreload")) with false.
  rewrite !str_eqb_refl. cbv iota. cbn [negb].
  destruct lb; reflexivity.
Qed.

Lemma worker_notification_is_accepted_witness :
  path (notify_request (u "5f2a")) = u "/notify" /\
  field_get (headers (notify_request (u "5f2a"))) (u "Shiny-Autoreload-Secret")
    = Some (u "5f2a") /\
  run_handler
    (thread_app_url
       (start_server (fun url => url) (u "5f2a") (fun _ => None) 8123 8000 true))
    (3 + 0)
    (handler
       (_thread_main field_get
          (start_server (fun url => url) (u "5f2a") (fun _ => None) 8123 8000 true))
       (Some (notify_request (u "5f2a"))))
    [] {| inbox := [Text (u "reload_end")]; accepts := 0 |}
    (shared
       (_thread_main field_get
          (start_server (fun url => url) (u "5f2a") (fun _ => None) 8123 8000 true)))
  = {| returned := Some (Ok tt);
       actions := [Received (Some (Text (u "reload_end"))); Nudged];
       peer := {| inbox := []; accepts := 0 |};
       closure :=
         {| launch_browser := false;
            effects :=
              (if true
               then [BrowserOpen
                       ((fun url => url)
                          (u "http://127.0.0.1:" ++ str_of_Z 8000 ++ u "/")) 1]
               else [])
              ++ [EventSet; EventClear] |} |}.
Proof.
  assert (field_get (headers (notify_request (u "5f2a")))
            (u "Shiny-Autoreload-Secret") = Some (u "5f2a")) as H2
    by (vm_compute; reflexivity).
  split; [reflexivity|]. split; [exact H2|].
  exact (worker_notification_is_accepted (list (str * str)) field_get
           (fun url => url) (u "5f2a") (fun _ => None) 8123 8000 true
           (notify_request (u "5f2a")) 0 eq_refl H2).
Defined.

(** X16. [emit] creates a notification task exactly when the message does
    not contain ["Reloading..."], contains ["Application startup
    complete."], and [SHINY_AUTORELOAD_PORT] is set to a non-empty value; a
    message with both texts notifies nobody, and without the port no message
    does. *)
Theorem emit_notifies_iff (env : environ) (message : str) :
  emit env message <> None <->
  str_contains (u "Reloading...") message = false /\
  str_contains (u "Application startup complete.") message = true /\
  exists port, getenv env (u "SHINY_AUTORELOAD_PORT") = Some port /\ port <> [].
Proof.
  unfold emit, reload_begin, reload_end.
  destruct (str_contains (u "Reloading...") message).
  - split; [congruence | intros [H _]; discriminate].
  - destruct (str_contains (u "Application startup complete.") message).
    + destruct (getenv env (u "SHINY_AUTORELOAD_PORT")) as [[|c p]|].
      * split; [congruence|].
        intros (_ & _ & port & E & N). injection E as <-. congruence.
      * split; [|discriminate].
        intros _. repeat split. exists (c :: p). split; [reflexivity|discriminate].
      * split; [congruence|].
        intros (_ & _ & port & E & _). discriminate.
    + split; [congruence | intros (_ & H & _); discriminate].
Qed.

Lemma forallb_map_bytes (f : N -> bool) (bs : bytes) :
  forallb f (map Byte.to_N bs) = forallb (fun c => f (Byte.to_N c)) bs.
Proof.
  induction bs as [|c bs IH]; [reflexivity|].
  cbn [map forallb]. rewrite IH. reflexivity.
Qed.

Lemma is_ascii_str_of_Z (n : Z) : is_ascii (str_of_Z n) = true.
Proof.
  unfold is_ascii, str_of_Z. rewrite forallb_map_bytes.
  assert (forall fuel m acc,
             forallb (fun c => (Byte.to_N c <? 128)%N) acc = true ->
             forallb (fun c => (Byte.to_N c <? 128)%N) (to_digits fuel m acc)
             = true) as D.
  { assert (forall m, (Byte.to_N (digit_byte (m mod 10)) <? 128)%N = true) as B.
    { intros m. pose proof (mod10_digit m) as H.
      apply digit_cases in H. cbn [In] in H.
      repeat (destruct H as [H|H]; [rewrite <- H; reflexivity|]). destruct H. }
    induction fuel as [|fuel IH]; intros m acc H; cbn [to_digits].
    - cbn [forallb]. rewrite B, H. reflexivity.
    - destruct (m <? 10)%Z.
      + cbn [forallb]. rewrite B, H. reflexivity.
      + apply IH. cbn [forallb]. rewrite B, H. reflexivity. }
  unfold str_of_int, decimal. destruct (n <? 0)%Z.
  - cbn [forallb]. rewrite D by reflexivity. reflexivity.
  - apply D. reflexivity.
Qed.

(** X17. The other reader of the environment: in a worker that inherits
    the environment of [start_server], with a [get_proxy_url] that leaves
    URLs as they are, the constructor of the middleware returns (no
    [UnicodeEncodeError], whatever the port number) a middleware whose
    script is not empty and ends with the marker, so root documents are
    rewritten. *)
Theorem middleware_active_after_start (object : Type) (secret : str)
    (env : environ) (port app_port : Z) (lb : bool) (app : ASGI3Application) :
  exists tag,
    @__init__ (fun url => url) object
      (getenv (environment
                 (start_server (fun url => url) secret env port app_port lb))
         (u "SHINY_AUTORELOAD_PORT"))
      app [] [] =
    Ok {| Middleware.app := app; script := tag ++ head_end |}.
Proof.
  rewrite environment_port. unfold __init__, autoreload_url.
  cbn [len length Z.of_nat Z.ltb Z.compare orb].
  destruct (str_of_Z port) as [|d ds] eqn:E;
    [exfalso; exact (str_of_Z_not_empty port E)|].
  rewrite <- E.
  assert (is_ascii (script_text (u "ws://127.0.0.1:" ++ str_of_Z port
                                   ++ u "/autoreload")) = true) as A.
  { rewrite is_ascii_script_text, !is_ascii_app, is_ascii_str_of_Z.
    reflexivity. }
  destruct (encode_ascii_is_ascii _ A) as (bs & B).
  assert (exists tag, bs = tag ++ head_end) as [tag ->].
  { unfold script_text in B. rewrite !app_assoc in B.
    destruct (encode_ascii_app _ _ _ B) as (tag & m & _ & Em & ->).
    exists tag. f_equal. vm_compute in Em. injection Em as <-. reflexivity. }
  exists tag.
  destruct (u "ws://127.0.0.1:" ++ str_of_Z port ++ u "/autoreload")
    as [|c r] eqn:U; [discriminate U|].
  rewrite B. reflexivity.
Qed.

(** X18. A body that never ends and never shows the marker is withheld:
    after a start event and any number of body events that all have
    [more_body] true, with no marker in the bytes so far, nothing has been
    sent, and the object holds the start event and every byte received. *)
Theorem open_body_is_withheld (script : bytes) (start : HTTPResponseStartEvent)
    (chunks : list bytes) :
  contains head_end (concat chunks) = false ->
  run (mangle_callback script) (Start start :: open_body_events chunks) =
  (Ok tt, {| _done := false; _response_start := Some start;
             _body := concat chunks; sink := [] |}).
Proof.
  intros H.
  change (run (mangle_callback script) (Start start :: open_body_events chunks))
    with (send_all (mangle_callback script) (open_body_events chunks)
            (buffering start [])).
  change (concat chunks) with ([] ++ concat chunks) in H |- *.
  generalize (@nil byte) as acc, H. clear H.
  induction chunks as [|c chunks IH]; intros acc H.
  - cbn [concat]. rewrite app_nil_r. reflexivity.
  - cbn [concat] in H |- *. rewrite app_assoc in H |- *.
    cbn [open_body_events map]. rewrite send_all_cons.
    rewrite (send_chunk_buffered script start acc c)
      by exact (contains_app_false _ _ _ H).
    exact (IH (acc ++ c) H).
Qed.

Lemma open_body_is_withheld_witness :
  contains head_end (concat plain_chunks) = false /\
  run (mangle_callback sample_script)
    (Start plain_start :: open_body_events plain_chunks) =
  (Ok tt, {| _done := false; _response_start := Some plain_start;
             _body := concat plain_chunks; sink := [] |}).
Proof.
  assert (contains head_end (concat plain_chunks) = false) as H
    by (vm_compute; reflexivity).
  split; [exact H|].
  exact (open_body_is_withheld sample_script plain_start plain_chunks H).
Defined.

Lemma autoreload_keeps_closure (app_url : str) (frames : list Data)
    (c : Closure) (fuel : nat) :
  forall (acts : list action) (n : nat),
    closure (run_handler app_url fuel autoreload_loop acts
               {| inbox := frames; accepts := n |} c) = c /\
    inbox (peer (run_handler app_url fuel autoreload_loop acts
                   {| inbox := frames; accepts := n |} c)) = frames.
Proof.
  induction fuel as [fuel IH] using lt_wf_ind. intros acts n.
  destruct fuel as [|[|[|fuel]]].
  - split; reflexivity.
  - split; reflexivity.
  - destruct n; split; reflexivity.
  - change (S (S (S fuel))) with (3 + fuel)%nat. destruct n as [|n].
    + rewrite (autoreload_closed app_url fuel acts frames c). split; reflexivity.
    + rewrite (autoreload_round app_url fuel acts frames n c).
      apply IH. lia.
Qed.

(** X19. Only [/notify] can nudge: for a connection without a request or
    with a request for any other path ([/autoreload] included), run for any
    number of steps against any peer, the closure of [nudge] is as it was
    (no browser opened, no pulse) and no frame of the peer has been read. *)
Theorem only_notify_nudges (Headers : Type)
    (get : Headers -> str -> option str) (secret app_url : str)
    (request : option (Request Headers)) (fuel : nat) (p : Peer) (c : Closure) :
  not_notify request = true ->
  closure (run_handler app_url fuel (reload_server get secret request) [] p c)
    = c /\
  inbox (peer (run_handler app_url fuel (reload_server get secret request) [] p c))
    = inbox p.
Proof.
  intros H. destruct request as [req|].
  - cbn [not_notify] in H. apply negb_true_iff in H.
    unfold reload_server. rewrite H.
    destruct (str_eqb (path req) (u "/autoreload")).
    + destruct p as [frames n].
      apply (autoreload_keeps_closure app_url frames c fuel [] n).
    + destruct fuel; split; reflexivity.
  - destruct fuel; split; reflexivity.
Qed.

Lemma only_notify_nudges_witness :
  not_notify (Some plain_request) = true /\
  closure (run_handler (u "http://127.0.0.1:8000/") 50
             (reload_server field_get (u "abc") (Some plain_request)) []
             {| inbox := [Text (u "reload_end")]; accepts := 5 |} first_start)
    = first_start /\
  inbox (peer (run_handler (u "http://127.0.0.1:8000/") 50
                 (reload_server field_get (u "abc") (Some plain_request)) []
                 {| inbox := [Text (u "reload_end")]; accepts := 5 |} first_start))
    = inbox {| inbox := [Text (u "reload_end")]; accepts := 5 |}.
Proof.
  assert (not_notify (Some plain_request) = true) as H
    by (vm_compute; reflexivity).
  split; [exact H|].
  exact (only_notify_nudges (list (str * str)) field_get (u "abc")
           (u "http://127.0.0.1:8000/") (Some plain_request) 50
           {| inbox := [Text (u "reload_end")]; accepts := 5 |} first_start H).
Defined.
